(** * mutitaskNAM: the metric/loss module and the training driver

    A shallow embedding of [nam/metrics.py] and [run.py].

    Numbers.  The embedding of the two files takes tensor entries, losses
    and scores as exact rationals ([Q]): comparisons of finite IEEE values
    agree with the order of [Q], and sums, products and quotients are taken
    exactly, without rounding, overflow or underflow.  The one non-finite
    value it carries is the quotient of an empty sum by a zero count; a
    Python float is there an [option Q], with [None] for that value (nan).
    What is proved on it of a value is proved of the exact value.

    The arithmetic of [feature_loss] and of the regression metric is
    embedded a second time in [Binary64], on IEEE binary64 floats, with the
    rounding, the infinities and nan of the machine; the statements on the
    sign and on the order of summation are about that one.

    Exceptions.  A call that can raise returns a [result]. *)

From Stdlib Require Import Floats Uint63.
From Stdlib Require Import String.
From Stdlib Require Import List ZArith QArith Qabs Lia Lqa Bool Permutation.
Import ListNotations.

Set Implicit Arguments.

Open Scope Q_scope.

(** ** Exceptions and the error monad *)

Inductive exn : Type :=
| IndexError        (* a shape index out of range, argmax over an empty dimension *)
| ShapeError        (* operands that do not broadcast *)
| StateDictError.   (* load_state_dict given None *)

Inductive result (A : Type) : Type :=
| Ok (a : A)
| Raise (e : exn).

Arguments Ok {A} a.
Arguments Raise {A} e.

Definition bind {A B : Type} (r : result A) (k : A -> result B) : result B :=
  match r with
  | Ok a => k a
  | Raise e => Raise e
  end.

Notation "x <- r ;; k" := (bind r (fun x => k))
  (at level 61, r at next level, right associativity).
Notation "' p <- r ;; k" := (bind r (fun x => let p := x in k))
  (at level 61, p pattern, r at next level, right associativity).

(** ** Python floats *)

Definition float : Type := option Q.

Definition fin (q : Q) : float := Some q.
Definition nan : float := None.

Definition lift2 (f : Q -> Q -> Q) (a b : float) : float :=
  match a, b with
  | Some x, Some y => Some (f x y)
  | _, _ => None
  end.

Definition fadd : float -> float -> float := lift2 Qplus.
Definition fsub : float -> float -> float := lift2 Qminus.

Definition Q_of_nat (n : nat) : Q := inject_Z (Z.of_nat n).

(** True division of a number by a Python int that counts something. *)
Definition div_count (a : Q) (n : nat) : float :=
  if (n =? 0)%nat then nan else fin (a / Q_of_nat n).

Definition fdiv_count (a : float) (n : nat) : float :=
  match a with
  | Some x => div_count x n
  | None => None
  end.

(** [a <= b] on floats: every comparison with nan is false. *)
Definition fle (a b : float) : bool :=
  match a, b with
  | Some x, Some y => Qle_bool x y
  | _, _ => false
  end.

(** [a > b] on finite values. *)
Definition Qgtb (a b : Q) : bool := negb (Qle_bool a b).

(** ** Tensors of rank one and two, row-major *)

Inductive tensor : Type :=
| Vec (v : list Q)
| Mat (ncols : nat) (rows : list (list Q)).

Definition shape (t : tensor) : list nat :=
  match t with
  | Vec v => [length v]
  | Mat c rows => [length rows; c]
  end.

(** [t.numel()] *)
Definition numel (t : tensor) : nat := fold_right Nat.mul 1%nat (shape t).

(** [t.view(-1)] *)
Definition view_flat (t : tensor) : list Q :=
  match t with
  | Vec v => v
  | Mat _ rows => concat rows
  end.

(** Every row of a matrix has [ncols] entries. *)
Definition wf (t : tensor) : Prop :=
  match t with
  | Vec _ => True
  | Mat c rows => Forall (fun r => length r = c) rows
  end.

Definition sum (l : list Q) : Q := fold_right Qplus 0 l.

Definition count_true (l : list bool) : nat := length (filter (fun b => b) l).

Fixpoint map2 {A B C : Type} (f : A -> B -> C) (a : list A) (b : list B) : list C :=
  match a, b with
  | x :: a', y :: b' => f x y :: map2 f a' b'
  | _, _ => []
  end.

(** An elementwise binary operation on two flat tensors, with torch's
    broadcasting of a one-element operand. *)
Definition broadcast2 {A B C : Type} (f : A -> B -> C) (a : list A) (b : list B)
  : result (list C) :=
  if (length a =? length b)%nat then Ok (map2 f a b)
  else match a, b with
       | [x], _ => Ok (map (f x) b)
       | _, [y] => Ok (map (fun x => f x y) a)
       | _, _ => Raise ShapeError
       end.

(** Index of the first maximal entry, scanning from position [i]. *)
Fixpoint argmax_from (best_i : nat) (best : Q) (i : nat) (l : list Q) : nat :=
  match l with
  | [] => best_i
  | x :: l' =>
      if Qgtb x best then argmax_from i x (S i) l'
      else argmax_from best_i best (S i) l'
  end.

Definition argmax (l : list Q) : result nat :=
  match l with
  | [] => Raise IndexError
  | x :: l' => Ok (argmax_from 0 x 1 l')
  end.

Fixpoint argmax_rows (rows : list (list Q)) : result (list nat) :=
  match rows with
  | [] => Ok []
  | r :: rows' =>
      i <- argmax r ;;
      rest <- argmax_rows rows' ;;
      Ok (i :: rest)
  end.

(** [t.argmax(-1)]: one index per row; the rank-0 result of a vector is
    held as a one-element list, which broadcasts the same way. *)
Definition argmax_last (t : tensor) : result (list nat) :=
  match t with
  | Vec v => i <- argmax v ;; Ok [i]
  | Mat c rows => if (c =? 0)%nat then Raise IndexError else argmax_rows rows
  end.

(** ** nam/metrics.py *)

(** The loss functions of torch that the module calls. *)
Class TorchLosses : Type := {
  binary_cross_entropy_with_logits : list Q -> list Q -> result float;
  CrossEntropyLoss : tensor -> list nat -> result float;
  mse_loss : list Q -> list Q -> result float
}.

(** [lambda_ * (fnn_out ** 2).sum() / fnn_out.shape[1]] *)
Definition feature_loss (fnn_out : tensor) (lambda_ : Q) : result float :=
  match nth_error (shape fnn_out) 1 with
  | None => Raise IndexError
  | Some n_features =>
      Ok (div_count (lambda_ * sum (map (fun x => x * x) (view_flat fnn_out))) n_features)
  end.

Definition penalized_cross_entropy `{TorchLosses}
  (logits truth fnn_out : tensor) (feature_penalty : Q) : result float :=
  loss <- binary_cross_entropy_with_logits (view_flat logits) (view_flat truth) ;;
  penalty <- feature_loss fnn_out feature_penalty ;;
  Ok (fadd loss penalty).

Definition penalized_cross_entropy_MutiTask `{TorchLosses}
  (logits truth fnn_out : tensor) (feature_penalty : Q) : result float :=
  classes <- argmax_last truth ;;
  loss <- CrossEntropyLoss logits classes ;;
  penalty <- feature_loss fnn_out feature_penalty ;;
  Ok (fadd loss penalty).

Definition penalized_mse `{TorchLosses}
  (logits truth fnn_out : tensor) (feature_penalty : Q) : result float :=
  loss <- mse_loss (view_flat logits) (view_flat truth) ;;
  penalty <- feature_loss fnn_out feature_penalty ;;
  Ok (fadd loss penalty).

Definition accuracySingle (logits truths : tensor) : result float :=
  agree <- broadcast2 Bool.eqb
             (map (fun t => Qgtb t 0) (view_flat truths))
             (map (fun l => Qgtb l (1 # 2)) (view_flat logits)) ;;
  Ok (div_count (Q_of_nat (count_true agree)) (numel truths)).

Definition accuracyMuti (logits truths : tensor) : result float :=
  predicted <- argmax_last logits ;;
  expected <- argmax_last truths ;;
  agree <- broadcast2 Nat.eqb predicted expected ;;
  Ok (div_count (Q_of_nat (count_true agree)) (numel truths)).

Definition calculate_metric (logits truths : tensor) (regression : bool)
  : result (string * float) :=
  if regression then
    diff <- broadcast2 Qminus (view_flat logits) (view_flat truths) ;;
    Ok ("MAE"%string, div_count (sum (map Qabs diff)) (numel logits))
  else if (length (shape logits) =? 1)%nat then
    a <- accuracySingle logits truths ;;
    Ok ("accuracy"%string, a)
  else
    a <- accuracyMuti logits truths ;;
    Ok ("accuracy"%string, a).

(** ** run.py: flags *)

Module FLAGS.
Record t : Type := {
  training_epochs : Z;
  learning_rate : Q;
  output_regularization : Q;
  l2_regularization : Q;
  batch_size : Z;
  log_file : option string;
  dataset : string;
  decay_rate : Q;
  dropout : Q;
  data_split : Z;
  seed : Z;
  feature_dropout : Q;
  n_basis_functions : Z;
  units_multiplier : Z;
  n_models : Z;
  n_splits : Z;
  id_fold : Z;
  hidden_units : list string;
  shallow_layer : string;
  hidden_layer : string;
  regression : bool;
  early_stopping_epochs : Z
}.

(** The values of the [flags.DEFINE_*] lines. *)
Definition defaults : t := {|
  training_epochs := 10;
  learning_rate := 1 # 1000;
  output_regularization := 0;
  l2_regularization := 0;
  batch_size := 32;
  log_file := None;
  dataset := "BreastCancer";
  decay_rate := 995 # 1000;
  dropout := 1 # 2;
  data_split := 1;
  seed := 1;
  feature_dropout := 0;
  n_basis_functions := 1000;
  units_multiplier := 2;
  n_models := 1;
  n_splits := 3;
  id_fold := 1;
  hidden_units := [];
  shallow_layer := "exu";
  hidden_layer := "relu";
  regression := false;
  early_stopping_epochs := 60
|}.

(** The command line giving the flags [decay_rate], [dropout],
    [feature_dropout], [n_basis_functions], [units_multiplier],
    [hidden_units], [shallow_layer] and [hidden_layer]; every other flag
    as in [F]. *)
Definition with_architecture (F : t)
  (decay_rate' dropout' feature_dropout' : Q)
  (n_basis_functions' units_multiplier' : Z)
  (hidden_units' : list string) (shallow_layer' hidden_layer' : string) : t := {|
  training_epochs := training_epochs F;
  learning_rate := learning_rate F;
  output_regularization := output_regularization F;
  l2_regularization := l2_regularization F;
  batch_size := batch_size F;
  log_file := log_file F;
  dataset := dataset F;
  decay_rate := decay_rate';
  dropout := dropout';
  data_split := data_split F;
  seed := seed F;
  feature_dropout := feature_dropout';
  n_basis_functions := n_basis_functions';
  units_multiplier := units_multiplier';
  n_models := n_models F;
  n_splits := n_splits F;
  id_fold := id_fold F;
  hidden_units := hidden_units';
  shallow_layer := shallow_layer';
  hidden_layer := hidden_layer';
  regression := regression F;
  early_stopping_epochs := early_stopping_epochs F
|}.
End FLAGS.

(** ** run.py: what the driver asks of torch and of [nam.model] *)

(** The layer classes of [nam.model]. *)
Inductive layer_class : Type := ExULayer | ReLULayer.

(** The keyword arguments of [NeuralAdditiveModel(...)]. *)
Module Args.
Record t : Type := {
  input_size : nat;
  output_size : nat;
  shallow_units : list Z;
  hidden_units : list Z;
  shallow_layer : layer_class;
  hidden_layer : layer_class;
  hidden_dropout : Q;
  feature_dropout : Q
}.
End Args.

(** [StepLR(optimizer, gamma=..., step_size=...)] *)
Module StepLR.
Record t : Type := { gamma : Q; step_size : Z }.
End StepLR.

(** The function objects a [criterion] variable can hold. *)
Inductive criterion : Type :=
| Penalized_mse
| Penalized_cross_entropy
| Penalized_cross_entropy_MutiTask.

Definition criterion_call `{TorchLosses} (c : criterion)
  : tensor -> tensor -> tensor -> Q -> result float :=
  match c with
  | Penalized_mse => penalized_mse
  | Penalized_cross_entropy => penalized_cross_entropy
  | Penalized_cross_entropy_MutiTask => penalized_cross_entropy_MutiTask
  end.

Class Torch : Type := {
  Array : Type;        (* a numpy array of a fold *)
  Model : Type;        (* a NeuralAdditiveModel with its parameters and mode *)
  Optimizer : Type;    (* AdamW with its moments and learning rate *)
  StateDict : Type;
  Batch : Type;        (* an (x, y) pair of a DataLoader *)
  Loader : Type;
  array_shape : Array -> list nat;
  calculate_n_units : Array -> Z -> Z -> list Z;
  NeuralAdditiveModel : Args.t -> Model;
  AdamW : Model -> Q -> Q -> Optimizer;
  scheduler_step : StepLR.t -> Optimizer -> Optimizer;
  (* DataLoader(TensorDataset(x, y), batch_size, shuffle=True) *)
  DataLoader : Array -> Array -> Z -> Loader;
  (* the batches of the k-th pass over a loader; every pass is shuffled anew *)
  batches : Loader -> nat -> list Batch;
  train_mode : Model -> Model;
  eval_mode : Model -> Model;
  forward : Model -> Batch -> tensor * tensor;
  batch_y : Batch -> tensor;
  (* model.zero_grad(); loss.backward(); optimizer.step() for the loss of
     the given criterion and penalty on the batch *)
  backward_step : criterion -> Q -> Model -> Optimizer -> Batch -> Model * Optimizer;
  state_dict : Model -> StateDict;
  load_state_dict : Model -> StateDict -> Model;
  torch_losses :: TorchLosses
}.

(** [shape[-1]] *)
Definition shape_last (s : list nat) : result nat :=
  match rev s with
  | [] => Raise IndexError
  | n :: _ => Ok n
  end.

(** [total -= (total / i) - (x / i)] *)
Definition running_mean (total : float) (x : float) (i : nat) : float :=
  fsub total (fsub (fdiv_count total i) (fdiv_count x i)).

(** ** run.py: train_one_epoch and evaluate *)

(** The body of [train_one_epoch]'s loop over [enumerate(data_loader, start=1)],
    from index [i] on. *)
Fixpoint train_batches `{Torch} (F : FLAGS.t) (crit : criterion) (i : nat)
  (data : list Batch) (model : Model) (optimizer : Optimizer) (total_loss : float)
  : result (float * Model * Optimizer) :=
  match data with
  | [] => Ok (total_loss, model, optimizer)
  | b :: data' =>
      let '(logits, fnns_out) := forward model b in
      loss <- criterion_call crit logits (batch_y b) fnns_out (FLAGS.output_regularization F) ;;
      let total_loss := running_mean total_loss loss i in
      let '(model, optimizer) :=
        backward_step crit (FLAGS.output_regularization F) model optimizer b in
      train_batches F crit (S i) data' model optimizer total_loss
  end.

Definition train_one_epoch `{Torch} (F : FLAGS.t) (model : Model) (crit : criterion)
  (optimizer : Optimizer) (data_loader : list Batch)
  : result (float * Model * Optimizer) :=
  train_batches F crit 1 data_loader model optimizer (fin 0).

Fixpoint evaluate_batches `{Torch} (F : FLAGS.t) (i : nat) (data : list Batch)
  (model : Model) (metric : option string) (total_score : float)
  : result (option string * float) :=
  match data with
  | [] => Ok (metric, total_score)
  | b :: data' =>
      let '(logits, fnns_out) := forward model b in
      ' (metric, score) <- calculate_metric logits (batch_y b) (FLAGS.regression F) ;;
      evaluate_batches F (S i) data' model (Some metric) (running_mean total_score score i)
  end.

Definition evaluate `{Torch} (F : FLAGS.t) (model : Model) (data_loader : list Batch)
  : result (option string * float) :=
  evaluate_batches F 1 data_loader model None (fin 0).

(** ** run.py: train_model *)

(** Lines 66-72: the first assignment, then the [if]/[elif]/[else] whose
    last two branches are expression statements. *)
Definition criterion_dispatch (regression : bool) (y_shape : list nat) : criterion :=
  let crit := if regression then Penalized_mse else Penalized_cross_entropy in
  if regression then
    Penalized_mse
  else if (length y_shape =? 1)%nat then
    let _ := Penalized_cross_entropy in crit
  else
    let _ := Penalized_cross_entropy_MutiTask in crit.

Section TrainLoop.

(** [Trainer] is what an epoch works on (the model and its optimizer),
    [Weights] what a checkpoint holds. *)
Variables Trainer Weights : Type.

(** Lines 84-92: the training pass, the scheduler step and the validation
    pass of one epoch; the float is [val_score]. *)
Variable epoch_pass : nat -> Trainer -> result (Trainer * float).

(** [copy.deepcopy(model.state_dict())]: the checkpoint has storage of its
    own, so it keeps the weights of the epoch it was taken in. *)
Variable snapshot : Trainer -> Weights.

Record early_stop : Type := {
  n_tries : Z;
  best_validation_score : float;
  best_weights : option Weights
}.

Inductive verdict : Type :=
| Proceed (st : early_stop)     (* [continue], or the end of the body *)
| Stop (st : early_stop).       (* [break] *)

(** Lines 95-102. *)
Definition early_stopping (val_score : float) (weights : Weights) (st : early_stop)
  : verdict :=
  if fle val_score (best_validation_score st) && (0 <? n_tries st)%Z then
    Proceed {| n_tries := n_tries st - 1;
               best_validation_score := best_validation_score st;
               best_weights := best_weights st |}
  else if fle val_score (best_validation_score st) then
    Stop st
  else
    Proceed {| n_tries := n_tries st;
               best_validation_score := val_score;
               best_weights := Some weights |}.

(** The [for epoch in ...] loop; the last component is the epoch of the
    [break], the one logged as "early stopping at epoch". *)
Fixpoint epochs_loop (epochs : list nat) (tr : Trainer) (st : early_stop)
  : result (Trainer * early_stop * option nat) :=
  match epochs with
  | [] => Ok (tr, st, None)
  | epoch :: epochs' =>
      ' (tr, val_score) <- epoch_pass epoch tr ;;
      match early_stopping val_score (snapshot tr) st with
      | Proceed st => epochs_loop epochs' tr st
      | Stop st => Ok (tr, st, Some epoch)
      end
  end.

(** Lines 80-102. *)
Definition train_loop (training_epochs patience : Z) (tr : Trainer)
  : result (Trainer * early_stop * option nat) :=
  epochs_loop (seq 0 (Z.to_nat training_epochs)) tr
    {| n_tries := patience; best_validation_score := fin 0; best_weights := None |}.

(** [restore] is [model.load_state_dict]. Lines 80-106. *)
Definition fit (restore : Trainer -> Weights -> Trainer)
  (training_epochs patience : Z) (tr : Trainer) : result Trainer :=
  ' (tr, st, _) <- train_loop training_epochs patience tr ;;
  match best_weights st with
  | None => Raise StateDictError
  | Some w => Ok (restore tr w)
  end.

End TrainLoop.

Definition epoch_pass `{Torch} (F : FLAGS.t) (crit : criterion) (scheduler : StepLR.t)
  (train_loader validate_loader : Loader) (epoch : nat) (tr : Model * Optimizer)
  : result (Model * Optimizer * float) :=
  let '(model, optimizer) := tr in
  let model := train_mode model in
  ' (total_loss, model, optimizer) <-
      train_one_epoch F model crit optimizer (batches train_loader epoch) ;;
  let optimizer := scheduler_step scheduler optimizer in
  let model := eval_mode model in
  ' (metric, val_score) <- evaluate F model (batches validate_loader epoch) ;;
  Ok (model, optimizer, val_score).

(** [train_model] with the criterion held by the variable [criterion] at
    line 73 as a parameter. *)
Definition train_model_with `{Torch} (crit : criterion) (F : FLAGS.t)
  (x_train y_train x_validate y_validate : Array) : result Model :=
  input_size <- shape_last (array_shape x_train) ;;
  output_size <- (if (length (array_shape y_train) =? 1)%nat then Ok 1%nat
                  else shape_last (array_shape y_train)) ;;
  let model := NeuralAdditiveModel {|
    Args.input_size := input_size;
    Args.output_size := output_size;
    Args.shallow_units := calculate_n_units x_train 1000 2;
    Args.hidden_units := [];
    Args.shallow_layer := ExULayer;
    Args.hidden_layer := ExULayer;
    Args.hidden_dropout := 3 # 10;
    Args.feature_dropout := 0 |} in
  let optimizer := AdamW model (FLAGS.learning_rate F) (FLAGS.l2_regularization F) in
  let scheduler := {| StepLR.gamma := 995 # 1000; StepLR.step_size := 1 |} in
  let train_loader := DataLoader x_train y_train (FLAGS.batch_size F) in
  let validate_loader := DataLoader x_validate y_validate (FLAGS.batch_size F) in
  tr <- fit (epoch_pass F crit scheduler train_loader validate_loader)
            (fun tr => state_dict (fst tr))
            (fun tr w => (load_state_dict (fst tr) w, snd tr))
            (FLAGS.training_epochs F) (FLAGS.early_stopping_epochs F)
            (model, optimizer) ;;
  Ok (fst tr).

Definition train_model `{Torch} (F : FLAGS.t)
  (x_train y_train x_validate y_validate : Array) : result Model :=
  train_model_with (criterion_dispatch (FLAGS.regression F) (array_shape y_train))
    F x_train y_train x_validate y_validate.

(** ** run.py: the loop of main *)

(** Lines 156-167.  The generator [train] is held as the pairs it has yet to
    yield: [next(train)] takes the first of them, and raises StopIteration
    when there is none.  [train_model] and [evaluate] hold no bare [next],
    so what they raise is not a StopIteration and passes the [except]
    clause.  The result is [test_scores] with the generator as the loop
    leaves it. *)
Fixpoint main_loop `{Torch} (F : FLAGS.t) (train : list ((Array * Array) * (Array * Array)))
  (test_loader : Loader) (test_scores : list float)
  : result (list float * list ((Array * Array) * (Array * Array))) :=
  match train with
  | [] => Ok (test_scores, train)
  | ((x_train, y_train), (x_validate, y_validate)) :: train' =>
      model <- train_model F x_train y_train x_validate y_validate ;;
      ' (metric, score) <- evaluate F model (batches test_loader (length test_scores)) ;;
      main_loop F train' test_loader (test_scores ++ [score])
  end.

(** Lines 160-161 for the pair the generator yields at the [k]-th [next]:
    a model trained from scratch on the pair, evaluated on the test loader. *)
Definition fold_score `{Torch} (F : FLAGS.t) (test_loader : Loader) (k : nat)
  (fold : (Array * Array) * (Array * Array)) : result float :=
  let '((x_train, y_train), (x_validate, y_validate)) := fold in
  model <- train_model F x_train y_train x_validate y_validate ;;
  ' (metric, score) <- evaluate F model (batches test_loader k) ;;
  Ok score.

(** The scores of the pairs of [train], the first of them yielded at the
    [k]-th [next]. *)
Fixpoint fold_scores `{Torch} (F : FLAGS.t) (test_loader : Loader) (k : nat)
  (train : list ((Array * Array) * (Array * Array))) : result (list float) :=
  match train with
  | [] => Ok []
  | fold :: train' =>
      score <- fold_score F test_loader k fold ;;
      rest <- fold_scores F test_loader (S k) train' ;;
      Ok (score :: rest)
  end.

(** The sum of the absolute differences of paired elements. *)
Definition absolute_error (pairs : list (Q * Q)) : Q :=
  sum (map (fun p => Qabs (fst p - snd p)) pairs).

(** ** The arithmetic of the metric module on binary64 floats *)

Module Binary64.

(** [t.sum()], adding the entries in their order. *)
Definition sum (l : list PrimFloat.float) : PrimFloat.float :=
  fold_left PrimFloat.add l PrimFloat.zero.

(** A Python int that counts something, as a float. *)
Definition of_count (n : nat) : PrimFloat.float :=
  PrimFloat.of_uint63 (Uint63.of_Z (Z.of_nat n)).

(** [lambda_ * (fnn_out ** 2).sum() / fnn_out.shape[1]] on the rows of a
    matrix of [ncols] columns. *)
Definition feature_loss (ncols : nat) (rows : list (list PrimFloat.float))
  (lambda_ : PrimFloat.float) : PrimFloat.float :=
  PrimFloat.div
    (PrimFloat.mul lambda_ (sum (map (fun x => PrimFloat.mul x x) (concat rows))))
    (of_count ncols).

(** [(logits.view(-1) - truths.view(-1)).abs().sum() / logits.numel()] on
    two flat tensors of one size. *)
Definition mean_absolute_error (logits truths : list PrimFloat.float)
  : PrimFloat.float :=
  PrimFloat.div
    (sum (map2 (fun l t => PrimFloat.abs (PrimFloat.sub l t)) logits truths))
    (of_count (length logits)).

End Binary64.


(** A float whose sign bit is clear, or nan. *)
Definition plus_signed (f : spec_float) : Prop :=
  match f with
  | S754_nan => True
  | S754_zero s | S754_infinity s | S754_finite s _ _ => s = false
  end.

(** ** Scripted validation scores *)

Section Script.

(** [script e] is the validation score of epoch [e]. *)
Variable script : nat -> Q.

(** The largest of 0 and the scores of the epochs before [e]. *)
Fixpoint best_before (e : nat) : Q :=
  match e with
  | O => 0
  | S e' => if Qle_bool (script e') (best_before e') then best_before e' else script e'
  end.

(** Epoch [e] brings no improvement. *)
Definition stalled (e : nat) : bool := Qle_bool (script e) (best_before e).

(** The number of epochs before [e] that brought no improvement. *)
Fixpoint stalls_before (e : nat) : nat :=
  match e with
  | O => O
  | S e' => ((if stalled e' then 1 else 0) + stalls_before e')%nat
  end.

(** An epoch whose training pass is [train] and whose validation pass
    reads the score off the script. *)
Definition scripted (Trainer : Type) (train : nat -> Trainer -> Trainer)
  : nat -> Trainer -> result (Trainer * float) :=
  fun epoch tr => Ok (train epoch tr, fin (script epoch)).

End Script.

(** ** A backend to run the driver on

    One weight [w]; a batch is a whole dataset; [forward] scales the inputs
    by [w]; a training step adds the learning rate to [w]. *)

Definition scale (w : Q) (t : tensor) : tensor :=
  match t with
  | Vec v => Vec (map (Qmult w) v)
  | Mat c rows => Mat c (map (map (Qmult w)) rows)
  end.

Definition one_weight_losses : TorchLosses := {|
  binary_cross_entropy_with_logits := fun _ _ => Ok (fin 1);
  CrossEntropyLoss := fun _ _ => Ok (fin 2);
  mse_loss := fun _ _ => Ok (fin 3)
|}.

Definition one_weight : Torch := {|
  Array := tensor;
  Model := Q;
  Optimizer := Q;
  StateDict := Q;
  Batch := tensor * tensor;
  Loader := tensor * tensor;
  array_shape := shape;
  calculate_n_units := fun _ n _ => [n];
  NeuralAdditiveModel := fun _ => 0;
  AdamW := fun _ lr _ => lr;
  scheduler_step := fun s lr => StepLR.gamma s * lr;
  DataLoader := fun x y _ => (x, y);
  batches := fun l _ => [l];
  train_mode := fun w => w;
  eval_mode := fun w => w;
  forward := fun w b => (scale w (fst b), Mat 1 [[w]]);
  batch_y := snd;
  backward_step := fun _ _ w lr _ => (w + lr, lr);
  state_dict := fun w => w;
  load_state_dict := fun _ w => w;
  torch_losses := one_weight_losses
|}.


(** ** The course of a scripted run *)

(** The trainer after the training passes of the first [e] epochs. *)
Fixpoint trained (Trainer : Type) (train : nat -> Trainer -> Trainer) (tr : Trainer)
  (e : nat) : Trainer :=
  match e with
  | O => tr
  | S e' => train e' (trained train tr e')
  end.

(** The last of the first [e] epochs that brought an improvement. *)
Fixpoint last_improving (script : nat -> Q) (e : nat) : option nat :=
  match e with
  | O => None
  | S e' => if stalled script e' then last_improving script e' else Some e'
  end.

(** The number of epochs a loop ran that broke at [stop], or ran to the
    [limit]. *)
Definition epochs_run (stop : option nat) (limit : nat) : nat :=
  match stop with
  | Some e => S e
  | None => limit
  end.

(** The model and optimizer after the steps of [train_one_epoch] on the
    batches of [data], one [backward_step] a batch. *)
Definition stepped `{Torch} (crit : criterion) (feature_penalty : Q)
  (data : list Batch) (model : Model) (optimizer : Optimizer) : Model * Optimizer :=
  fold_left (fun st b => backward_step crit feature_penalty (fst st) (snd st) b)
            data (model, optimizer).

(** * Properties *)

(** ** Arithmetic of counts and sums *)

Lemma Q_of_nat_pos (n : nat) : (1 <= n)%nat -> 0 < Q_of_nat n.
Proof.
  intros Hn. unfold Q_of_nat, Qlt. simpl. lia.
Qed.

Lemma Q_of_nat_add (n m : nat) : Q_of_nat (n + m) == Q_of_nat n + Q_of_nat m.
Proof.
  unfold Q_of_nat. rewrite Nat2Z.inj_add, inject_Z_plus. reflexivity.
Qed.

Lemma div_count_pos (a : Q) (n : nat) :
  (1 <= n)%nat -> div_count a n = fin (a / Q_of_nat n).
Proof.
  intros Hn. unfold div_count.
  destruct (Nat.eqb_spec n 0) as [->|_]; [lia | reflexivity].
Qed.

Lemma sum_app (l1 l2 : list Q) : sum (l1 ++ l2) == sum l1 + sum l2.
Proof.
  induction l1 as [|x l1 IH]; simpl.
  - ring.
  - rewrite IH. ring.
Qed.


Lemma sum_perm (l1 l2 : list Q) : Permutation l1 l2 -> sum l1 == sum l2.
Proof.
  induction 1; simpl.
  - reflexivity.
  - rewrite IHPermutation. reflexivity.
  - ring.
  - etransitivity; eassumption.
Qed.

Lemma Qgtb_true (a b : Q) : Qgtb a b = true <-> b < a.
Proof.
  unfold Qgtb. rewrite negb_true_iff. split.
  - intros H. apply Qnot_le_lt. intros Hle. apply Qle_bool_iff in Hle. congruence.
  - intros H. destruct (Qle_bool a b) eqn:E; [|reflexivity].
    apply Qle_bool_iff in E. lra.
Qed.

Lemma Qgtb_false (a b : Q) : Qgtb a b = false <-> a <= b.
Proof.
  unfold Qgtb. rewrite negb_false_iff. apply Qle_bool_iff.
Qed.

Lemma broadcast2_same_length {A B C : Type} (f : A -> B -> C) (a : list A) (b : list B) :
  length a = length b -> broadcast2 f a b = Ok (map2 f a b).
Proof.
  intros H. unfold broadcast2. rewrite H, Nat.eqb_refl. reflexivity.
Qed.

Lemma numel_Vec (v : list Q) : numel (Vec v) = length v.
Proof.
  unfold numel. simpl. lia.
Qed.

Lemma numel_Mat (c : nat) (rows : list (list Q)) : numel (Mat c rows) = (length rows * c)%nat.
Proof.
  unfold numel. simpl. lia.
Qed.

(** ** The feature penalty *)

Lemma feature_loss_value (fnn_out : tensor) (lambda_ : Q) (n : nat) :
  nth_error (shape fnn_out) 1 = Some n -> (1 <= n)%nat ->
  feature_loss fnn_out lambda_ =
    Ok (fin (lambda_ * sum (map (fun x => x * x) (view_flat fnn_out)) / Q_of_nat n)).
Proof.
  intros Hshape Hn. unfold feature_loss. rewrite Hshape, div_count_pos by exact Hn.
  reflexivity.
Qed.

Lemma sum_squares_doubled_rows (rows : list (list Q)) :
  sum (map (fun x => x * x) (concat (map (fun r => r ++ r) rows)))
  == 2 * sum (map (fun x => x * x) (concat rows)).
Proof.
  induction rows as [|r rows IH]; simpl.
  - ring.
  - rewrite !map_app, !sum_app, IH. ring.
Qed.



(** C5: the penalty of the three losses is the weight times the sum of the
    squared entries over the number of columns; stacking the batch twice
    doubles it, repeating every column leaves it as it is. *)
Theorem feature_penalty_normalized_by_features `{TorchLosses}
  (logits truth : tensor) (c : nat) (rows : list (list Q)) (lambda_ : Q) :
  (1 <= c)%nat ->
  exists p,
    feature_loss (Mat c rows) lambda_ = Ok (fin p) /\
    p == lambda_ * sum (map (fun x => x * x) (concat rows)) / Q_of_nat c /\
    penalized_cross_entropy logits truth (Mat c rows) lambda_ =
      (loss <- binary_cross_entropy_with_logits (view_flat logits) (view_flat truth) ;;
       Ok (fadd loss (fin p))) /\
    penalized_cross_entropy_MutiTask logits truth (Mat c rows) lambda_ =
      (classes <- argmax_last truth ;;
       loss <- CrossEntropyLoss logits classes ;;
       Ok (fadd loss (fin p))) /\
    penalized_mse logits truth (Mat c rows) lambda_ =
      (loss <- mse_loss (view_flat logits) (view_flat truth) ;;
       Ok (fadd loss (fin p))) /\
    (exists p2, feature_loss (Mat c (rows ++ rows)) lambda_ = Ok (fin p2) /\
                p2 == 2 * p /\ (~ p == 0 -> ~ p2 == p)) /\
    (exists p1, feature_loss (Mat (c + c) (map (fun r => r ++ r) rows)) lambda_ = Ok (fin p1) /\
                p1 == p).
Proof.
  intros Hc.
  pose proof (Q_of_nat_pos Hc) as Hpos.
  assert (Hp : feature_loss (Mat c rows) lambda_ =
               Ok (fin (lambda_ * sum (map (fun x => x * x) (concat rows)) / Q_of_nat c)))
    by (apply (@feature_loss_value (Mat c rows) lambda_ c); [reflexivity | exact Hc]).
  eexists. split; [exact Hp|]. split; [reflexivity|].
  split; [|split; [|split; [|split]]].
  - unfold penalized_cross_entropy. rewrite Hp. reflexivity.
  - unfold penalized_cross_entropy_MutiTask. rewrite Hp. reflexivity.
  - unfold penalized_mse. rewrite Hp. reflexivity.
  - eexists. split.
    + apply (@feature_loss_value (Mat c (rows ++ rows)) lambda_ c); [reflexivity | exact Hc].
    + assert (E : lambda_ * sum (map (fun x => x * x) (view_flat (Mat c (rows ++ rows))))
                  / Q_of_nat c
                  == 2 * (lambda_ * sum (map (fun x => x * x) (concat rows)) / Q_of_nat c)).
      { simpl. rewrite concat_app, map_app, sum_app. field. lra. }
      split; [exact E|]. intros Hnz Heq. apply Hnz. rewrite E in Heq. lra.
  - eexists. split.
    + apply (@feature_loss_value (Mat (c + c) (map (fun r => r ++ r) rows)) lambda_ (c + c));
        [reflexivity | lia].
    + simpl. rewrite sum_squares_doubled_rows, Q_of_nat_add. field. lra.
Qed.

Lemma feature_penalty_normalized_by_features_witness :
  exists p,
    feature_loss (Mat 2 [[1; 2]; [3; 4]]) (1 # 2) = Ok (fin p) /\
    (exists p2, feature_loss (Mat 2 ([[1; 2]; [3; 4]] ++ [[1; 2]; [3; 4]])) (1 # 2)
                = Ok (fin p2) /\ p2 == 2 * p) /\
    (exists p1, feature_loss (Mat (2 + 2) (map (fun r => r ++ r) [[1; 2]; [3; 4]])) (1 # 2)
                = Ok (fin p1) /\ p1 == p).
Proof.
  destruct (@feature_penalty_normalized_by_features one_weight_losses
              (Vec [1]) (Vec [1]) 2 [[1; 2]; [3; 4]] (1 # 2))
    as (p & Hp & _ & _ & _ & _ & (p2 & Hp2 & Hdouble & _) & (p1 & Hp1 & Hsame)).
  - lia.
  - exists p. split; [exact Hp|]. split.
    + exists p2. split; assumption.
    + exists p1. split; assumption.
Defined.

(** ** Counting agreements *)

Lemma map2_map {A A' B B' C : Type} (f : A' -> B' -> C) (g : A -> A') (h : B -> B')
  (a : list A) (b : list B) :
  map2 f (map g a) (map h b) = map2 (fun x y => f (g x) (h y)) a b.
Proof.
  revert b. induction a as [|x a IH]; intros [|y b]; simpl; try reflexivity.
  now rewrite IH.
Qed.

Lemma map2_combine {A B C : Type} (f : A -> B -> C) (a : list A) (b : list B) :
  map2 f a b = map (fun p => f (fst p) (snd p)) (combine a b).
Proof.
  revert b. induction a as [|x a IH]; intros [|y b]; simpl; try reflexivity.
  now rewrite IH.
Qed.

Lemma count_true_all {A B : Type} (f : A -> B -> bool) (a : list A) (b : list B) :
  Forall2 (fun x y => f x y = true) a b -> count_true (map2 f a b) = length a.
Proof.
  unfold count_true. induction 1 as [|x y a b Hxy _ IH]; simpl.
  - reflexivity.
  - rewrite Hxy. simpl. now rewrite IH.
Qed.

Lemma count_true_none {A B : Type} (f : A -> B -> bool) (a : list A) (b : list B) :
  Forall2 (fun x y => f x y = false) a b -> count_true (map2 f a b) = 0%nat.
Proof.
  unfold count_true. induction 1 as [|x y a b Hxy _ IH]; simpl.
  - reflexivity.
  - rewrite Hxy. exact IH.
Qed.

Lemma Forall2_swap {A B : Type} (R : A -> B -> Prop) (R' : B -> A -> Prop)
  (a : list A) (b : list B) :
  (forall x y, R x y -> R' y x) -> Forall2 R a b -> Forall2 R' b a.
Proof.
  intros HR. induction 1; constructor; auto.
Qed.

Lemma threshold_agree (l t : Q) :
  Bool.eqb (Qgtb t 0) (Qgtb l (1 # 2)) = true <-> (0 < t <-> 1 # 2 < l).
Proof.
  rewrite Bool.eqb_true_iff.
  destruct (Qgtb t 0) eqn:Et, (Qgtb l (1 # 2)) eqn:El;
    first [ apply Qgtb_true in Et | apply Qgtb_false in Et ];
    first [ apply Qgtb_true in El | apply Qgtb_false in El ];
    split; intros H; try reflexivity; try discriminate; try (split; intro; lra).
  - destruct H as [H _]. specialize (H Et). lra.
  - destruct H as [_ H]. specialize (H El). lra.
Qed.

Lemma count_div_all (n : nat) : (1 <= n)%nat -> Q_of_nat n / Q_of_nat n == 1.
Proof.
  intros Hn. pose proof (Q_of_nat_pos Hn). field. lra.
Qed.

Lemma count_div_none (n : nat) : Q_of_nat 0 / Q_of_nat n == 0.
Proof.
  unfold Q_of_nat. simpl. unfold Qdiv. ring.
Qed.

(** ** accuracySingle *)

(** C7: on two vectors of one size, with at least one element,
    [accuracySingle] is 1 when every element agrees under the thresholds
    and 0 when every element disagrees. *)
Theorem accuracySingle_all_or_nothing (logits truths : list Q) :
  length logits = length truths -> (1 <= length truths)%nat ->
  (Forall2 (fun l t => 0 < t <-> 1 # 2 < l) logits truths ->
   exists a, accuracySingle (Vec logits) (Vec truths) = Ok (fin a) /\ a == 1) /\
  (Forall2 (fun l t => ~ (0 < t <-> 1 # 2 < l)) logits truths ->
   exists a, accuracySingle (Vec logits) (Vec truths) = Ok (fin a) /\ a == 0).
Proof.
  intros Hlen Hn.
  assert (Hrun : forall k,
    count_true (map2 (fun t l => Bool.eqb (Qgtb t 0) (Qgtb l (1 # 2))) truths logits) = k ->
    accuracySingle (Vec logits) (Vec truths)
    = Ok (fin (Q_of_nat k / Q_of_nat (length truths)))).
  { intros k Hk. unfold accuracySingle. simpl view_flat.
    rewrite broadcast2_same_length by (rewrite !length_map; symmetry; exact Hlen).
    simpl. rewrite map2_map, Hk, numel_Vec, div_count_pos by exact Hn. reflexivity. }
  split; intros Hall.
  - eexists. split.
    + apply Hrun. apply count_true_all.
      eapply Forall2_swap; [|exact Hall]. intros l t H. now apply threshold_agree.
    + apply count_div_all. exact Hn.
  - eexists. split.
    + apply Hrun. apply count_true_none.
      eapply Forall2_swap; [|exact Hall]. intros l t H.
      apply not_true_is_false. intros E. apply H. now apply threshold_agree.
    + apply count_div_none.
Qed.

Lemma accuracySingle_all_or_nothing_witness :
  (exists a, accuracySingle (Vec [1; 0; 3 # 4]) (Vec [1; 0; 1]) = Ok (fin a) /\ a == 1) /\
  (exists a, accuracySingle (Vec [0; 1; 1 # 4]) (Vec [1; 0; 1]) = Ok (fin a) /\ a == 0).
Proof.
  split.
  - apply (@accuracySingle_all_or_nothing [1; 0; 3 # 4] [1; 0; 1]).
    + reflexivity.
    + simpl. lia.
    + repeat constructor; intros H; try reflexivity; try discriminate H.
  - apply (@accuracySingle_all_or_nothing [0; 1; 1 # 4] [1; 0; 1]).
    + reflexivity.
    + simpl. lia.
    + repeat constructor; intros [H1 H2];
        first [ discriminate (H1 eq_refl) | discriminate (H2 eq_refl) ].
Defined.

(** ** accuracyMuti *)

Lemma argmax_rows_defined (c : nat) (rows : list (list Q)) :
  (1 <= c)%nat -> Forall (fun r => length r = c) rows ->
  exists idx, argmax_rows rows = Ok idx /\ Forall2 (fun r i => argmax r = Ok i) rows idx.
Proof.
  intros Hc. induction 1 as [|r rows Hr _ [idx [Hidx Hall]]].
  - exists []. split; [reflexivity | constructor].
  - destruct r as [|x r]; [simpl in Hr; lia|].
    exists (argmax_from 0 x 1 r :: idx). split.
    + simpl. rewrite Hidx. reflexivity.
    + constructor; [reflexivity | exact Hall].
Qed.

Lemma argmax_indices_related (R : nat -> nat -> Prop) (logits truths : list (list Q))
  (predicted expected : list nat) :
  Forall2 (fun r i => argmax r = Ok i) logits predicted ->
  Forall2 (fun r i => argmax r = Ok i) truths expected ->
  Forall2 (fun l t => forall i j, argmax l = Ok i -> argmax t = Ok j -> R i j) logits truths ->
  Forall2 R predicted expected.
Proof.
  intros Hl. revert truths expected.
  induction Hl as [|l i logits predicted Hi _ IH]; intros truths expected Ht Hrel.
  - inversion Hrel; subst. inversion Ht; subst. constructor.
  - inversion Hrel as [|? t ? truths' Hlt Hrest]; subst.
    inversion Ht as [|? j ? expected' Hj Ht']; subst.
    constructor; [now apply Hlt | now apply IH with (truths := truths')].
Qed.

(** C2: on two (rows x classes) matrices with at least one row and one
    class, [accuracyMuti] is the number of rows over the number of entries,
    1 / classes, when the arg-max class matches in every row, and 0 when it
    matches in none. *)
Theorem accuracyMuti_all_or_nothing (c : nat) (logits truths : list (list Q)) :
  (1 <= c)%nat -> (1 <= length truths)%nat ->
  wf (Mat c logits) -> wf (Mat c truths) ->
  (Forall2 (fun l t => argmax l = argmax t) logits truths ->
   exists a, accuracyMuti (Mat c logits) (Mat c truths) = Ok (fin a) /\
             a == 1 / Q_of_nat c) /\
  (Forall2 (fun l t => argmax l <> argmax t) logits truths ->
   exists a, accuracyMuti (Mat c logits) (Mat c truths) = Ok (fin a) /\ a == 0).
Proof.
  intros Hc Hn Hwl Hwt. simpl in Hwl, Hwt.
  destruct (argmax_rows_defined Hc Hwl) as [predicted [Hp Hpall]].
  destruct (argmax_rows_defined Hc Hwt) as [expected [He Heall]].
  pose proof (Q_of_nat_pos Hc) as Hcpos.
  pose proof (Q_of_nat_pos Hn) as Hnpos.
  assert (Hrun : forall k, Forall2 (fun l t : list Q => True) logits truths ->
    count_true (map2 Nat.eqb predicted expected) = k ->
    accuracyMuti (Mat c logits) (Mat c truths)
    = Ok (fin (Q_of_nat k / Q_of_nat (length truths * c)))).
  { intros k Hsame Hk. unfold accuracyMuti, argmax_last.
    destruct (Nat.eqb_spec c 0) as [->|_]; [lia|].
    rewrite Hp, He. simpl.
    rewrite broadcast2_same_length.
    - simpl. rewrite Hk, numel_Mat, div_count_pos by nia. reflexivity.
    - apply Forall2_length in Hpall, Heall, Hsame. congruence. }
  split; intros Hall.
  - eexists. split.
    + apply Hrun; [eapply Forall2_impl; [|exact Hall]; auto|]. apply count_true_all.
      apply (argmax_indices_related (fun i j => (i =? j)%nat = true) Hpall Heall).
      eapply Forall2_impl; [|exact Hall]. intros l t E i j Hi Hj.
      apply Nat.eqb_eq. congruence.
    + apply Forall2_length in Hpall, Heall. apply Forall2_length in Hall.
      replace (length predicted) with (length truths) by congruence.
      unfold Q_of_nat in *. rewrite Nat2Z.inj_mul, inject_Z_mult. field. lra.
  - eexists. split.
    + apply Hrun; [eapply Forall2_impl; [|exact Hall]; auto|]. apply count_true_none.
      apply (argmax_indices_related (fun i j => (i =? j)%nat = false) Hpall Heall).
      eapply Forall2_impl; [|exact Hall]. intros l t E i j Hi Hj.
      apply Nat.eqb_neq. congruence.
    + apply count_div_none.
Qed.

Lemma accuracyMuti_all_or_nothing_witness :
  exists a, accuracyMuti (Mat 2 [[2; 1]]) (Mat 2 [[1; 0]]) = Ok (fin a) /\
            a == 1 / Q_of_nat 2.
Proof.
  apply (@accuracyMuti_all_or_nothing 2 [[2; 1]] [[1; 0]]).
  - lia.
  - simpl. lia.
  - simpl. repeat constructor.
  - simpl. repeat constructor.
  - repeat constructor.
Defined.

(** [accuracyMuti] on one row whose arg-max class is the expected one. *)
Lemma accuracyMuti_one_matching_row :
  accuracyMuti (Mat 2 [[2; 1]]) (Mat 2 [[1; 0]]) = Ok (fin (1 # 2)).
Proof.
  reflexivity.
Qed.

(** ** The regression metric *)

Lemma wf_numel (t : tensor) : wf t -> length (view_flat t) = numel t.
Proof.
  destruct t as [v | c rows].
  - intros _. now rewrite numel_Vec.
  - simpl. rewrite numel_Mat. induction 1 as [|r rows Hr _ IH]; simpl.
    + reflexivity.
    + rewrite length_app, IH, Hr. reflexivity.
Qed.

Lemma absolute_error_perm (p1 p2 : list (Q * Q)) :
  Permutation p1 p2 -> absolute_error p1 == absolute_error p2.
Proof.
  intros Hperm. unfold absolute_error. apply sum_perm. now apply Permutation_map.
Qed.

Lemma calculate_metric_regression (logits truths : tensor) :
  wf logits -> length (view_flat logits) = length (view_flat truths) ->
  (1 <= numel logits)%nat ->
  calculate_metric logits truths true
  = Ok ("MAE"%string,
        fin (absolute_error (combine (view_flat logits) (view_flat truths))
             / Q_of_nat (numel logits))).
Proof.
  intros Hwf Hlen Hn. unfold calculate_metric.
  rewrite broadcast2_same_length by exact Hlen. simpl.
  rewrite div_count_pos by exact Hn. rewrite map2_combine, map_map. reflexivity.
Qed.

(** In exact arithmetic the regression metric is the sum of the absolute
    elementwise differences over the number of elements, and permuting the
    elements of both tensors alike leaves it as it is. *)
Lemma calculate_metric_MAE_permutation (logits truths logits' truths' : tensor) :
  wf logits -> wf logits' ->
  length (view_flat logits) = length (view_flat truths) ->
  length (view_flat logits') = length (view_flat truths') ->
  (1 <= numel logits)%nat ->
  Permutation (combine (view_flat logits) (view_flat truths))
              (combine (view_flat logits') (view_flat truths')) ->
  exists v v',
    calculate_metric logits truths true = Ok ("MAE"%string, fin v) /\
    v == absolute_error (combine (view_flat logits) (view_flat truths))
         / Q_of_nat (numel logits) /\
    calculate_metric logits' truths' true = Ok ("MAE"%string, fin v') /\
    v' == v.
Proof.
  intros Hwf Hwf' Hlen Hlen' Hn Hperm.
  assert (Hnumel : numel logits' = numel logits).
  { apply Permutation_length in Hperm. rewrite !length_combine in Hperm.
    rewrite <- (@wf_numel logits Hwf), <- (@wf_numel logits' Hwf'). lia. }
  pose proof (Q_of_nat_pos Hn) as Hpos.
  eexists. eexists.
  split; [apply (@calculate_metric_regression logits truths Hwf Hlen Hn)|].
  split; [reflexivity|].
  split; [apply (@calculate_metric_regression logits' truths' Hwf' Hlen'); lia|].
  rewrite Hnumel, (absolute_error_perm Hperm). reflexivity.
Qed.

(** ** The early-stopping loop on scripted scores *)

Section ScriptedLoop.

Variables Trainer Weights : Type.
Variable train : nat -> Trainer -> Trainer.
Variable snapshot : Trainer -> Weights.
Variable script : nat -> Q.

Lemma early_stopping_stall_decrement (score best : Q) (n : Z) (w : Weights)
  (ckpt : option Weights) :
  score <= best -> (0 < n)%Z ->
  early_stopping (fin score) w
    {| n_tries := n; best_validation_score := fin best; best_weights := ckpt |}
  = Proceed {| n_tries := n - 1; best_validation_score := fin best; best_weights := ckpt |}.
Proof.
  intros Hle Hn. unfold early_stopping. simpl.
  apply Qle_bool_iff in Hle. rewrite Hle.
  apply Z.ltb_lt in Hn. rewrite Hn. reflexivity.
Qed.

Lemma early_stopping_stall_stop (score best : Q) (n : Z) (w : Weights)
  (ckpt : option Weights) :
  score <= best -> (n <= 0)%Z ->
  early_stopping (fin score) w
    {| n_tries := n; best_validation_score := fin best; best_weights := ckpt |}
  = Stop {| n_tries := n; best_validation_score := fin best; best_weights := ckpt |}.
Proof.
  intros Hle Hn. unfold early_stopping. simpl.
  apply Qle_bool_iff in Hle. rewrite Hle.
  apply Z.ltb_ge in Hn. rewrite Hn. reflexivity.
Qed.

Lemma early_stopping_improve (score best : Q) (n : Z) (w : Weights)
  (ckpt : option Weights) :
  best < score ->
  early_stopping (fin score) w
    {| n_tries := n; best_validation_score := fin best; best_weights := ckpt |}
  = Proceed {| n_tries := n; best_validation_score := fin score; best_weights := Some w |}.
Proof.
  intros Hlt. unfold early_stopping. simpl.
  destruct (Qle_bool score best) eqn:E.
  - apply Qle_bool_iff in E. lra.
  - reflexivity.
Qed.

Lemma stalls_before_mono (e e' : nat) :
  (e <= e')%nat -> (stalls_before script e <= stalls_before script e')%nat.
Proof.
  induction 1 as [|e' _ IH]; simpl; lia.
Qed.

Lemma stalls_before_past_stall (e e' : nat) :
  stalled script e = true -> (e < e')%nat ->
  (stalls_before script e < stalls_before script e')%nat.
Proof.
  intros Hst Hlt.
  apply Nat.lt_le_trans with (m := stalls_before script (S e)).
  - simpl. rewrite Hst. lia.
  - apply stalls_before_mono. lia.
Qed.

(** From epoch [e] on, with the state the epochs before [e] leave. *)
Lemma epochs_loop_scripted (patience : Z) (k : nat) :
  forall (e : nat) (tr : Trainer) (n : Z) (ckpt : option Weights),
    (stalls_before script e <= Z.to_nat patience)%nat ->
    n = (patience - Z.of_nat (stalls_before script e))%Z ->
    exists tr' st' stop,
      epochs_loop (scripted script train) snapshot (seq e k) tr
        {| n_tries := n; best_validation_score := fin (best_before script e);
           best_weights := ckpt |}
      = Ok (tr', st', stop) /\
      forall e', stop = Some e' <->
                 (e <= e' < e + k)%nat /\ stalled script e' = true /\
                 stalls_before script e' = Z.to_nat patience.
Proof.
  induction k as [|k IH]; intros e tr n ckpt Hle Hn.
  - do 3 eexists. split; [reflexivity|].
    intros e'. split; [discriminate | lia].
  - simpl seq. cbn [epochs_loop scripted bind].
    destruct (stalled script e) eqn:Hst.
    + pose proof Hst as Hq. unfold stalled in Hq. apply Qle_bool_iff in Hq.
      destruct (Z.ltb_spec 0 n) as [Hpos | Hnonpos].
      * rewrite (early_stopping_stall_decrement _ _ Hq Hpos).
        destruct (IH (S e) (train e tr) (n - 1)%Z ckpt) as (tr' & st' & stop & Hrun & Hstop).
        { simpl. rewrite Hst. lia. }
        { simpl. rewrite Hst. lia. }
        exists tr', st', stop. split.
        { simpl best_before in Hrun. fold (stalled script e) in Hrun.
          rewrite Hst in Hrun. exact Hrun. }
        intros e'. rewrite Hstop. split.
        { intros (Hr & H1 & H2). repeat split; try assumption; lia. }
        { intros (Hr & H1 & H2). repeat split; try assumption; try lia.
          destruct (Nat.eq_dec e' e) as [->|]; lia. }
      * rewrite (early_stopping_stall_stop _ _ Hq Hnonpos).
        do 3 eexists. split; [reflexivity|].
        intros e'. split.
        { intros [= <-]. repeat split; try assumption; lia. }
        { intros (Hr & H1 & H2). f_equal.
          destruct (Nat.eq_dec e e') as [E|E]; [exact E | exfalso].
          assert (e < e')%nat as Hlt by lia.
          pose proof (stalls_before_past_stall Hst Hlt). lia. }
    + pose proof Hst as Hq. unfold stalled in Hq.
      assert (Hlt : best_before script e < script e).
      { apply Qnot_le_lt. intros Hc. apply Qle_bool_iff in Hc. congruence. }
      rewrite (early_stopping_improve _ _ _ Hlt).
      destruct (IH (S e) (train e tr) n (Some (snapshot (train e tr))))
        as (tr' & st' & stop & Hrun & Hstop).
      { simpl. rewrite Hst. lia. }
      { simpl. rewrite Hst. lia. }
      exists tr', st', stop. split.
      { simpl best_before in Hrun. fold (stalled script e) in Hrun.
        rewrite Hst in Hrun. exact Hrun. }
      intros e'. rewrite Hstop. split.
      { intros (Hr & H1 & H2). repeat split; try assumption; lia. }
      { intros (Hr & H1 & H2). repeat split; try assumption; try lia.
        destruct (Nat.eq_dec e' e) as [->|]; [congruence | lia]. }
Qed.

(** Scores that never exceed 0 leave the loop without a checkpoint. *)
Lemma epochs_loop_no_checkpoint (epochs : list nat) :
  (forall e, script e <= 0) ->
  forall (tr : Trainer) (n : Z),
  exists tr' n' stop,
    epochs_loop (scripted script train) snapshot epochs tr
      {| n_tries := n; best_validation_score := fin 0; best_weights := None |}
    = Ok (tr', {| n_tries := n'; best_validation_score := fin 0; best_weights := None |},
          stop).
Proof.
  intros Hlow. induction epochs as [|e epochs IH]; intros tr n.
  - do 3 eexists. reflexivity.
  - cbn [epochs_loop scripted bind].
    destruct (Z.ltb_spec 0 n) as [Hpos | Hnonpos].
    + rewrite (early_stopping_stall_decrement _ _ (Hlow e) Hpos). apply IH.
    + rewrite (early_stopping_stall_stop _ _ (Hlow e) Hnonpos).
      do 3 eexists. reflexivity.
Qed.

End ScriptedLoop.

(** C4: when no score of the script exceeds 0 (in particular when no epoch
    is run) the loop ends without a checkpoint and the terminal
    [load_state_dict] raises. *)
Theorem fit_without_improvement_raises (Trainer Weights : Type)
  (train : nat -> Trainer -> Trainer) (snapshot : Trainer -> Weights)
  (restore : Trainer -> Weights -> Trainer)
  (script : nat -> Q) (training_epochs patience : Z) (tr : Trainer) :
  (forall e, script e <= 0) ->
  fit (scripted script train) snapshot restore training_epochs patience tr
  = Raise StateDictError.
Proof.
  intros Hlow. unfold fit, train_loop.
  destruct (@epochs_loop_no_checkpoint Trainer Weights train snapshot script
              (seq 0 (Z.to_nat training_epochs)) Hlow tr patience)
    as (tr' & n' & stop & Hrun).
  rewrite Hrun. reflexivity.
Qed.

Lemma fit_without_improvement_raises_witness :
  fit (scripted (fun _ => 0) (fun (_ : nat) (w : Q) => w + 1)) (fun w => w)
      (fun _ w => w) 3 1 0
  = Raise StateDictError.
Proof.
  apply (@fit_without_improvement_raises Q Q (fun _ w => w + 1) (fun w => w)
           (fun _ w => w) (fun _ => 0) 3 1 0).
  intros e. apply Qle_refl.
Defined.

(** A run of no epoch returns no model, whatever the backend. *)
Lemma train_model_no_epoch `{Torch} (F : FLAGS.t)
  (x_train y_train x_validate y_validate : Array) :
  (FLAGS.training_epochs F <= 0)%Z ->
  forall model, train_model F x_train y_train x_validate y_validate <> Ok model.
Proof.
  intros Hep model. unfold train_model, train_model_with, fit, train_loop.
  replace (Z.to_nat (FLAGS.training_epochs F)) with 0%nat by lia.
  destruct (shape_last (array_shape x_train)) as [input_size|e]; simpl; [|discriminate].
  destruct (if (length (array_shape y_train) =? 1)%nat then Ok 1%nat
            else shape_last (array_shape y_train)) as [output_size|e]; simpl;
    discriminate.
Qed.

(** ** What train_model reads of the flags *)

Section FlagsRead.

Context `{Torch}.

Lemma train_batches_flags (F F' : FLAGS.t) (crit : criterion) (data : list Batch) :
  FLAGS.output_regularization F = FLAGS.output_regularization F' ->
  forall i model optimizer total_loss,
    train_batches F crit i data model optimizer total_loss
    = train_batches F' crit i data model optimizer total_loss.
Proof.
  intros Hreg. induction data as [|b data IH]; intros i model optimizer total_loss; simpl.
  - reflexivity.
  - rewrite <- Hreg. destruct (forward model b) as [logits fnns_out].
    destruct (criterion_call crit logits (batch_y b) fnns_out
                (FLAGS.output_regularization F)) as [loss|e]; simpl; [|reflexivity].
    destruct (backward_step crit (FLAGS.output_regularization F) model optimizer b).
    apply IH.
Qed.

Lemma evaluate_batches_flags (F F' : FLAGS.t) (data : list Batch) :
  FLAGS.regression F = FLAGS.regression F' ->
  forall i model metric total_score,
    evaluate_batches F i data model metric total_score
    = evaluate_batches F' i data model metric total_score.
Proof.
  intros Hreg. induction data as [|b data IH]; intros i model metric total_score; simpl.
  - reflexivity.
  - rewrite <- Hreg. destruct (forward model b) as [logits fnns_out].
    destruct (calculate_metric logits (batch_y b) (FLAGS.regression F)) as [[m s]|e];
      simpl; [apply IH | reflexivity].
Qed.

Lemma epoch_pass_flags (F F' : FLAGS.t) (crit : criterion) (scheduler : StepLR.t)
  (train_loader validate_loader : Loader) (epoch : nat) (tr : Model * Optimizer) :
  FLAGS.output_regularization F = FLAGS.output_regularization F' ->
  FLAGS.regression F = FLAGS.regression F' ->
  epoch_pass F crit scheduler train_loader validate_loader epoch tr
  = epoch_pass F' crit scheduler train_loader validate_loader epoch tr.
Proof.
  intros Hpen Hreg. unfold epoch_pass, train_one_epoch, evaluate.
  destruct tr as [model optimizer].
  rewrite (train_batches_flags F F' crit _ Hpen).
  destruct (train_batches F' crit 1 (batches train_loader epoch) (train_mode model)
              optimizer (fin 0)) as [[[total_loss model'] optimizer']|e]; simpl;
    [|reflexivity].
  rewrite (evaluate_batches_flags F F' _ Hreg). reflexivity.
Qed.

Lemma epochs_loop_ext (Trainer Weights : Type)
  (pass pass' : nat -> Trainer -> result (Trainer * float)) (snapshot : Trainer -> Weights) :
  (forall e tr, pass e tr = pass' e tr) ->
  forall epochs tr st,
    epochs_loop pass snapshot epochs tr st = epochs_loop pass' snapshot epochs tr st.
Proof.
  intros Hext. induction epochs as [|e epochs IH]; intros tr st; simpl.
  - reflexivity.
  - rewrite Hext. destruct (pass' e tr) as [[tr' val_score]|err]; simpl; [|reflexivity].
    destruct (early_stopping val_score (snapshot tr') st); [apply IH | reflexivity].
Qed.

(** [train_model] reads seven flags and no other. *)
Lemma train_model_with_flags (crit : criterion) (F F' : FLAGS.t)
  (x_train y_train x_validate y_validate : Array) :
  FLAGS.training_epochs F = FLAGS.training_epochs F' ->
  FLAGS.learning_rate F = FLAGS.learning_rate F' ->
  FLAGS.output_regularization F = FLAGS.output_regularization F' ->
  FLAGS.l2_regularization F = FLAGS.l2_regularization F' ->
  FLAGS.batch_size F = FLAGS.batch_size F' ->
  FLAGS.regression F = FLAGS.regression F' ->
  FLAGS.early_stopping_epochs F = FLAGS.early_stopping_epochs F' ->
  train_model_with crit F x_train y_train x_validate y_validate
  = train_model_with crit F' x_train y_train x_validate y_validate.
Proof.
  intros Hep Hlr Hpen Hl2 Hbs Hreg Hes. unfold train_model_with, fit, train_loop.
  rewrite <- Hep, <- Hlr, <- Hl2, <- Hbs, <- Hes.
  destruct (shape_last (array_shape x_train)) as [input_size|e]; simpl; [|reflexivity].
  destruct (if (length (array_shape y_train) =? 1)%nat then Ok 1%nat
            else shape_last (array_shape y_train)) as [output_size|e]; simpl;
    [|reflexivity].
  erewrite epochs_loop_ext; [reflexivity|].
  intros e tr. apply epoch_pass_flags; assumption.
Qed.

End FlagsRead.

(** C6: the flags [decay_rate], [dropout], [feature_dropout],
    [n_basis_functions], [units_multiplier], [hidden_units],
    [shallow_layer] and [hidden_layer] do not reach [train_model]: two
    command lines that differ in them alone give the same run on the same
    data. *)
Theorem train_model_ignores_architecture_flags `{Torch} (F : FLAGS.t)
  (x_train y_train x_validate y_validate : Array)
  (decay_rate1 dropout1 feature_dropout1 : Q) (n_basis_functions1 units_multiplier1 : Z)
  (hidden_units1 : list string) (shallow_layer1 hidden_layer1 : string)
  (decay_rate2 dropout2 feature_dropout2 : Q) (n_basis_functions2 units_multiplier2 : Z)
  (hidden_units2 : list string) (shallow_layer2 hidden_layer2 : string) :
  train_model
    (FLAGS.with_architecture F decay_rate1 dropout1 feature_dropout1 n_basis_functions1
       units_multiplier1 hidden_units1 shallow_layer1 hidden_layer1)
    x_train y_train x_validate y_validate
  = train_model
      (FLAGS.with_architecture F decay_rate2 dropout2 feature_dropout2 n_basis_functions2
         units_multiplier2 hidden_units2 shallow_layer2 hidden_layer2)
      x_train y_train x_validate y_validate.
Proof.
  unfold train_model. simpl FLAGS.regression.
  apply train_model_with_flags; reflexivity.
Qed.

(** ** The criterion of a classification run *)

(** C3: with regression off and two-dimensional targets the variable
    [criterion] holds [penalized_cross_entropy], not
    [penalized_cross_entropy_MutiTask], and every step of
    [train_one_epoch] computes its loss with it. *)
Theorem multiclass_run_trains_with_binary_criterion `{Torch} (F : FLAGS.t)
  (x_train y_train x_validate y_validate : Array) :
  FLAGS.regression F = false -> length (array_shape y_train) = 2%nat ->
  criterion_dispatch (FLAGS.regression F) (array_shape y_train) = Penalized_cross_entropy /\
  criterion_dispatch (FLAGS.regression F) (array_shape y_train)
    <> Penalized_cross_entropy_MutiTask /\
  train_model F x_train y_train x_validate y_validate
  = train_model_with Penalized_cross_entropy F x_train y_train x_validate y_validate /\
  (forall i b data model optimizer total_loss,
     train_batches F (criterion_dispatch (FLAGS.regression F) (array_shape y_train)) i
       (b :: data) model optimizer total_loss
     = (loss <- penalized_cross_entropy (fst (forward model b)) (batch_y b)
                  (snd (forward model b)) (FLAGS.output_regularization F) ;;
        train_batches F Penalized_cross_entropy (S i) data
          (fst (backward_step Penalized_cross_entropy (FLAGS.output_regularization F)
                  model optimizer b))
          (snd (backward_step Penalized_cross_entropy (FLAGS.output_regularization F)
                  model optimizer b))
          (running_mean total_loss loss i))).
Proof.
  intros Hreg Hrank.
  assert (Hcrit : criterion_dispatch (FLAGS.regression F) (array_shape y_train)
                  = Penalized_cross_entropy).
  { unfold criterion_dispatch. rewrite Hreg, Hrank. reflexivity. }
  split; [exact Hcrit|]. split; [rewrite Hcrit; discriminate|].
  split; [unfold train_model; rewrite Hcrit; reflexivity|].
  intros i b data model optimizer total_loss. rewrite Hcrit.
  cbn [train_batches criterion_call].
  destruct (forward model b) as [logits fnns_out]. cbn [fst snd].
  destruct (penalized_cross_entropy logits (batch_y b) fnns_out
              (FLAGS.output_regularization F)) as [loss|e]; cbn [bind]; [|reflexivity].
  destruct (backward_step Penalized_cross_entropy (FLAGS.output_regularization F)
              model optimizer b). reflexivity.
Qed.

Lemma multiclass_run_trains_with_binary_criterion_witness :
  @train_model one_weight FLAGS.defaults
    (Mat 1 [[1]; [1]]) (Mat 2 [[1; 0]; [0; 1]]) (Mat 1 [[1]]) (Mat 2 [[1; 0]])
  = @train_model_with one_weight Penalized_cross_entropy FLAGS.defaults
      (Mat 1 [[1]; [1]]) (Mat 2 [[1; 0]; [0; 1]]) (Mat 1 [[1]]) (Mat 2 [[1; 0]]).
Proof.
  apply (@multiclass_run_trains_with_binary_criterion one_weight FLAGS.defaults
           (Mat 1 [[1]; [1]]) (Mat 2 [[1; 0]; [0; 1]]) (Mat 1 [[1]]) (Mat 2 [[1; 0]])).
  - reflexivity.
  - reflexivity.
Defined.

(** ** The loop of main *)

Section MainLoop.

Context `{Torch}.

Lemma main_loop_fold_scores (F : FLAGS.t) (test_loader : Loader)
  (train : list ((Array * Array) * (Array * Array))) :
  forall test_scores,
    main_loop F train test_loader test_scores
    = (new <- fold_scores F test_loader (length test_scores) train ;;
       Ok (test_scores ++ new, [])).
Proof.
  induction train as [|[[x_train y_train] [x_validate y_validate]] train IH];
    intros test_scores; simpl.
  - rewrite app_nil_r. reflexivity.
  - unfold fold_score.
    destruct (train_model F x_train y_train x_validate y_validate) as [model|e]; simpl;
      [|reflexivity].
    destruct (evaluate F model (batches test_loader (length test_scores)))
      as [[metric score]|e]; simpl; [|reflexivity].
    rewrite IH, length_app, Nat.add_1_r. simpl.
    destruct (fold_scores F test_loader (S (length test_scores)) train) as [new|e]; simpl.
    + rewrite <- app_assoc. reflexivity.
    + reflexivity.
Qed.

Lemma fold_scores_ok (F : FLAGS.t) (test_loader : Loader)
  (train : list ((Array * Array) * (Array * Array))) :
  forall k scores,
    fold_scores F test_loader k train = Ok scores ->
    length scores = length train /\
    forall i fold, nth_error train i = Some fold ->
                   exists score, fold_score F test_loader (k + i) fold = Ok score /\
                                 nth_error scores i = Some score.
Proof.
  induction train as [|fold0 train IH]; intros k scores Hrun; simpl in Hrun.
  - injection Hrun as <-. split; [reflexivity|]. intros [|i] fold Hi; discriminate.
  - destruct (fold_score F test_loader k fold0) as [s|e] eqn:Hs; simpl in Hrun;
      [|discriminate].
    destruct (fold_scores F test_loader (S k) train) as [rest|e] eqn:Hrest;
      simpl in Hrun; [|discriminate].
    injection Hrun as <-. destruct (IH _ _ Hrest) as [Hlen Hnth].
    split; [simpl; now rewrite Hlen|].
    intros [|i] fold Hi; simpl in Hi.
    + injection Hi as <-. exists s. rewrite Nat.add_0_r. split; [exact Hs | reflexivity].
    + destruct (Hnth i fold Hi) as [score [Hscore Hget]].
      exists score. rewrite Nat.add_succ_r. split; assumption.
Qed.

Lemma fold_scores_raise (F : FLAGS.t) (test_loader : Loader)
  (train : list ((Array * Array) * (Array * Array))) :
  forall k e,
    fold_scores F test_loader k train = Raise e ->
    exists i fold, nth_error train i = Some fold /\
                   fold_score F test_loader (k + i) fold = Raise e.
Proof.
  induction train as [|fold0 train IH]; intros k e Hrun; simpl in Hrun.
  - discriminate.
  - destruct (fold_score F test_loader k fold0) as [s|e0] eqn:Hs; simpl in Hrun.
    + destruct (fold_scores F test_loader (S k) train) as [rest|e1] eqn:Hrest;
        simpl in Hrun; [discriminate|].
      injection Hrun as <-. destruct (IH _ _ Hrest) as (i & fold & Hi & Hfold).
      exists (S i), fold. rewrite Nat.add_succ_r. split; assumption.
    + injection Hrun as <-. exists 0%nat, fold0. rewrite Nat.add_0_r.
      split; [reflexivity | exact Hs].
Qed.

End MainLoop.

(** C10: the loop of [main] trains a model from scratch on every pair the
    generator yields, evaluates it on the test loader and collects the
    score; it ends normally only on the StopIteration of the exhausted
    generator, with one score per pair, and an error it ends with is the
    error of the training or evaluation of one of the pairs. *)
Theorem main_loop_runs_until_exhausted `{Torch} (F : FLAGS.t) (test_loader : Loader)
  (train : list ((Array * Array) * (Array * Array))) :
  main_loop F train test_loader []
  = (scores <- fold_scores F test_loader 0 train ;; Ok (scores, [])) /\
  (forall scores g,
     main_loop F train test_loader [] = Ok (scores, g) ->
     g = [] /\ length scores = length train /\
     forall i fold, nth_error train i = Some fold ->
                    exists score, fold_score F test_loader i fold = Ok score /\
                                  nth_error scores i = Some score) /\
  (forall e,
     main_loop F train test_loader [] = Raise e ->
     exists i fold, nth_error train i = Some fold /\
                    fold_score F test_loader i fold = Raise e).
Proof.
  pose proof (main_loop_fold_scores F test_loader train []) as Hloop.
  simpl in Hloop. split; [exact Hloop|]. rewrite Hloop. split.
  - intros scores g Hrun.
    destruct (fold_scores F test_loader 0 train) as [new|e] eqn:Hnew; simpl in Hrun;
      [|discriminate].
    injection Hrun as <- <-. split; [reflexivity|].
    apply (fold_scores_ok F test_loader train 0 Hnew).
  - intros e Hrun.
    destruct (fold_scores F test_loader 0 train) as [new|e0] eqn:Hnew; simpl in Hrun;
      [discriminate|].
    injection Hrun as <-.
    apply (fold_scores_raise F test_loader train 0 Hnew).
Qed.

(** * Further properties of the metric module *)

Lemma count_true_le (l : list bool) : (count_true l <= length l)%nat.
Proof.
  unfold count_true. apply filter_length_le.
Qed.

Lemma map2_length {A B C : Type} (f : A -> B -> C) (a : list A) (b : list B) :
  length a = length b -> length (map2 f a b) = length a.
Proof.
  revert b. induction a as [|x a IH]; intros [|y b] Hlen; simpl in *; try lia.
  rewrite IH; lia.
Qed.

Lemma Q_of_nat_le (k n : nat) : (k <= n)%nat -> Q_of_nat k <= Q_of_nat n.
Proof.
  intros Hle. unfold Q_of_nat, Qle. simpl. lia.
Qed.

Lemma Q_of_nat_nonneg (k : nat) : 0 <= Q_of_nat k.
Proof.
  unfold Q_of_nat, Qle. simpl. lia.
Qed.


Lemma ratio_bounds (k n : nat) :
  (k <= n)%nat -> (1 <= n)%nat -> 0 <= Q_of_nat k / Q_of_nat n <= 1.
Proof.
  intros Hle Hn. pose proof (Q_of_nat_pos Hn) as Hpos.
  pose proof (Q_of_nat_le Hle) as Hkn. pose proof (Q_of_nat_nonneg k) as Hk.
  split.
  - apply Qle_shift_div_l; [exact Hpos | lra].
  - apply Qle_shift_div_r; [exact Hpos | lra].
Qed.

Lemma accuracySingle_bounds_helper (l t : list Q) :
  length l = length t -> (1 <= length t)%nat ->
  exists a, accuracySingle (Vec l) (Vec t) = Ok (fin a) /\ 0 <= a <= 1.
Proof.
  intros Hlen Hn. unfold accuracySingle. cbn [view_flat].
  rewrite broadcast2_same_length by (rewrite !length_map; symmetry; exact Hlen).
  cbn [bind]. rewrite numel_Vec, div_count_pos by exact Hn.
  eexists. split; [reflexivity|]. apply ratio_bounds; [|exact Hn].
  etransitivity; [apply count_true_le|].
  rewrite map2_length by (rewrite !length_map; symmetry; exact Hlen).
  rewrite length_map. lia.
Qed.

(** X1: on two tensors of one size, with at least one element,
    [accuracySingle] returns a value between 0 and 1. *)
Theorem accuracySingle_bounds (logits truths : tensor) :
  wf truths -> length (view_flat logits) = length (view_flat truths) ->
  (1 <= numel truths)%nat ->
  exists a, accuracySingle logits truths = Ok (fin a) /\ 0 <= a <= 1.
Proof.
  intros Hwf Hlen Hn. unfold accuracySingle.
  rewrite broadcast2_same_length by (rewrite !length_map; symmetry; exact Hlen).
  cbn [bind]. rewrite div_count_pos by exact Hn.
  eexists. split; [reflexivity|]. apply ratio_bounds; [|exact Hn].
  etransitivity; [apply count_true_le|].
  rewrite map2_length by (rewrite !length_map; symmetry; exact Hlen).
  rewrite length_map, (@wf_numel truths Hwf). lia.
Qed.

Lemma accuracySingle_bounds_witness :
  exists a, accuracySingle (Vec [1; 0; 1]) (Vec [1; 1; 0]) = Ok (fin a) /\ 0 <= a <= 1.
Proof.
  apply (@accuracySingle_bounds (Vec [1; 0; 1]) (Vec [1; 1; 0])).
  - exact I.
  - reflexivity.
  - rewrite numel_Vec. simpl. lia.
Defined.





Lemma absolute_error_cons (x y : Q) (pairs : list (Q * Q)) :
  absolute_error ((x, y) :: pairs) = Qabs (x - y) + absolute_error pairs.
Proof.
  reflexivity.
Qed.




Lemma absolute_error_swap (a b : list Q) :
  absolute_error (combine a b) == absolute_error (combine b a).
Proof.
  revert b. induction a as [|x a IH]; intros [|y b]; cbn [combine]; try reflexivity.
  rewrite !absolute_error_cons, IH, (Qabs_Qminus x y). reflexivity.
Qed.

(** X4: the regression metric is symmetric: on two tensors of one size,
    with at least one element, exchanging predictions and targets gives
    the same value. *)
Theorem calculate_metric_MAE_symmetric (logits truths : tensor) :
  wf logits -> wf truths -> length (view_flat logits) = length (view_flat truths) ->
  (1 <= numel logits)%nat ->
  exists v v',
    calculate_metric logits truths true = Ok ("MAE"%string, fin v) /\
    calculate_metric truths logits true = Ok ("MAE"%string, fin v') /\
    v' == v.
Proof.
  intros Hwl Hwt Hlen Hn.
  assert (Hnumel : numel truths = numel logits)
    by (rewrite <- (@wf_numel logits Hwl), <- (@wf_numel truths Hwt); lia).
  pose proof (Q_of_nat_pos Hn) as Hpos.
  eexists. eexists.
  split; [apply (@calculate_metric_regression logits truths Hwl Hlen Hn)|].
  split; [apply (@calculate_metric_regression truths logits Hwt); [symmetry; exact Hlen | lia]|].
  rewrite Hnumel, (absolute_error_swap (view_flat truths) (view_flat logits)).
  reflexivity.
Qed.

Lemma calculate_metric_MAE_symmetric_witness :
  exists v v',
    calculate_metric (Vec [1; 5; 2]) (Vec [3; 1; 2]) true = Ok ("MAE"%string, fin v) /\
    calculate_metric (Vec [3; 1; 2]) (Vec [1; 5; 2]) true = Ok ("MAE"%string, fin v') /\
    v' == v.
Proof.
  apply (@calculate_metric_MAE_symmetric (Vec [1; 5; 2]) (Vec [3; 1; 2])).
  - exact I.
  - exact I.
  - reflexivity.
  - rewrite numel_Vec. simpl. lia.
Defined.

Lemma broadcast2_mismatch {A B C : Type} (f : A -> B -> C) (a : list A) (b : list B) :
  length a <> length b -> length a <> 1%nat -> length b <> 1%nat ->
  broadcast2 f a b = Raise ShapeError.
Proof.
  intros Hne Ha Hb. unfold broadcast2.
  destruct (Nat.eqb_spec (length a) (length b)) as [E|_]; [contradiction|].
  destruct a as [|x [|x' a]]; destruct b as [|y [|y' b]]; simpl in *;
    try reflexivity; try lia.
Qed.

(** X5: when the two tensors differ in size and neither has exactly one
    element, the regression metric and the thresholded accuracy raise: no
    value is returned for operands that do not broadcast. *)
Theorem calculate_metric_size_mismatch_raises (logits truths : tensor) :
  length (view_flat logits) <> length (view_flat truths) ->
  length (view_flat logits) <> 1%nat -> length (view_flat truths) <> 1%nat ->
  calculate_metric logits truths true = Raise ShapeError /\
  accuracySingle logits truths = Raise ShapeError /\
  (length (shape logits) = 1%nat ->
   calculate_metric logits truths false = Raise ShapeError).
Proof.
  intros Hne Hl Ht. split; [|split].
  - unfold calculate_metric. rewrite broadcast2_mismatch by assumption. reflexivity.
  - unfold accuracySingle.
    rewrite broadcast2_mismatch by (rewrite ?length_map; auto). reflexivity.
  - intros Hrank. unfold calculate_metric, accuracySingle. rewrite Hrank.
    rewrite broadcast2_mismatch by (rewrite ?length_map; auto). reflexivity.
Qed.

Lemma calculate_metric_size_mismatch_raises_witness :
  calculate_metric (Vec [1; 2; 3]) (Vec [1; 2]) true = Raise ShapeError /\
  accuracySingle (Vec [1; 2; 3]) (Vec [1; 2]) = Raise ShapeError /\
  (length (shape (Vec [1; 2; 3])) = 1%nat ->
   calculate_metric (Vec [1; 2; 3]) (Vec [1; 2]) false = Raise ShapeError).
Proof.
  apply (@calculate_metric_size_mismatch_raises (Vec [1; 2; 3]) (Vec [1; 2])).
  - simpl. lia.
  - simpl. lia.
  - simpl. lia.
Defined.

(** X8: a rank-one tensor of feature outputs has no [shape[1]]: the
    feature penalty raises an IndexError on it, and none of the three
    penalized losses returns a value. *)
Theorem penalized_losses_need_rank_two `{TorchLosses}
  (logits truth : tensor) (v : list Q) (lambda_ : Q) :
  feature_loss (Vec v) lambda_ = Raise IndexError /\
  (forall x, penalized_cross_entropy logits truth (Vec v) lambda_ <> Ok x) /\
  (forall x, penalized_cross_entropy_MutiTask logits truth (Vec v) lambda_ <> Ok x) /\
  (forall x, penalized_mse logits truth (Vec v) lambda_ <> Ok x).
Proof.
  assert (Hp : feature_loss (Vec v) lambda_ = Raise IndexError) by reflexivity.
  split; [exact Hp|]. split; [|split]; intros x.
  - unfold penalized_cross_entropy. rewrite Hp.
    destruct (binary_cross_entropy_with_logits (view_flat logits) (view_flat truth));
      discriminate.
  - unfold penalized_cross_entropy_MutiTask. rewrite Hp.
    destruct (argmax_last truth) as [classes|e]; cbn [bind]; [|discriminate].
    destruct (CrossEntropyLoss logits classes); discriminate.
  - unfold penalized_mse. rewrite Hp.
    destruct (mse_loss (view_flat logits) (view_flat truth)); discriminate.
Qed.

(** * Further properties of the driver *)

Section EpochPasses.

Context `{Torch}.

Lemma calculate_metric_label (logits truths : tensor) (regression : bool)
  (metric : string) (score : float) :
  calculate_metric logits truths regression = Ok (metric, score) ->
  metric = if regression then "MAE"%string else "accuracy"%string.
Proof.
  unfold calculate_metric. destruct regression.
  - destruct (broadcast2 Qminus (view_flat logits) (view_flat truths)); cbn [bind];
      [|discriminate]. now intros [= <- _].
  - destruct (length (shape logits) =? 1)%nat.
    + destruct (accuracySingle logits truths); cbn [bind]; [|discriminate].
      now intros [= <- _].
    + destruct (accuracyMuti logits truths); cbn [bind]; [|discriminate].
      now intros [= <- _].
Qed.

(** After the batches before index [i] the running total times [i - 1] is
    the sum of their scores; the batches from [i] on keep it so. *)
Lemma evaluate_batches_mean (F : FLAGS.t) (model : Model) (data : list Batch) :
  forall (scores : list Q) (i : nat) (metric : option string) (total acc : Q),
    (1 <= i)%nat ->
    total * (Q_of_nat i - 1) == acc ->
    Forall2 (fun b s => exists m,
               calculate_metric (fst (forward model b)) (batch_y b) (FLAGS.regression F)
               = Ok (m, fin s)) data scores ->
    exists metric' t,
      evaluate_batches F i data model metric (fin total) = Ok (metric', fin t) /\
      t * (Q_of_nat (i + length data) - 1) == acc + sum scores /\
      (metric' = match data with
                 | [] => metric
                 | _ :: _ => Some (if FLAGS.regression F then "MAE"%string
                                   else "accuracy"%string)
                 end).
Proof.
  induction data as [|b data IH]; intros scores i metric total acc Hi Hacc Hall.
  - inversion Hall; subst. exists metric, total. split; [reflexivity|]. split.
    + rewrite Nat.add_0_r. simpl. lra.
    + reflexivity.
  - inversion Hall as [|? s ? scores' [m Hm] Hrest]; subst.
    pose proof (calculate_metric_label _ _ _ Hm) as Hlabel.
    cbn [evaluate_batches]. destruct (forward model b) as [logits fnns_out].
    cbn [fst] in Hm. rewrite Hm. cbn [bind].
    unfold running_mean. cbn [fdiv_count fin]. rewrite !div_count_pos by exact Hi.
    cbn [fsub lift2 fin].
    pose proof (Q_of_nat_pos Hi) as Hpos.
    destruct (IH scores' (S i) (Some m)
                (total - (total / Q_of_nat i - s / Q_of_nat i)) (acc + s))
      as (metric' & t & Hrun & Ht & Hmetric).
    + lia.
    + replace (S i) with (i + 1)%nat by lia. rewrite Q_of_nat_add.
      change (Q_of_nat 1) with 1. rewrite <- Hacc. field. lra.
    + exact Hrest.
    + exists metric', t. split; [exact Hrun|]. split.
      * replace (i + length (b :: data))%nat with (S i + length data)%nat
          by (simpl; lia).
        rewrite Ht. simpl. ring.
      * rewrite Hmetric. destruct data; [now rewrite Hlabel | reflexivity].
Qed.

Lemma train_batches_stepped (F : FLAGS.t) (crit : criterion) (data : list Batch) :
  forall i model optimizer total_loss total_loss' model' optimizer',
    train_batches F crit i data model optimizer total_loss
    = Ok (total_loss', model', optimizer') ->
    (model', optimizer')
    = stepped crit (FLAGS.output_regularization F) data model optimizer.
Proof.
  unfold stepped.
  induction data as [|b data IH];
    intros i model optimizer total_loss total_loss' model' optimizer' Hrun;
    cbn [train_batches] in Hrun.
  - now injection Hrun as _ <- <-.
  - destruct (forward model b) as [logits fnns_out].
    destruct (criterion_call crit logits (batch_y b) fnns_out
                (FLAGS.output_regularization F)) as [loss|e]; cbn [bind] in Hrun;
      [|discriminate].
    cbn [fold_left fst snd].
    destruct (backward_step crit (FLAGS.output_regularization F) model optimizer b)
      as [model1 optimizer1].
    apply (IH _ _ _ _ _ _ _ Hrun).
Qed.

End EpochPasses.

(** X10: when [train_one_epoch] returns, the model and the optimizer it
    leaves are those of one optimizer step a batch, in the order of the
    loader; the values of the losses, finite or not, do not enter. *)
Theorem train_one_epoch_steps_every_batch `{Torch} (F : FLAGS.t) (model : Model)
  (crit : criterion) (optimizer : Optimizer) (data : list Batch)
  (total_loss : float) (model' : Model) (optimizer' : Optimizer) :
  train_one_epoch F model crit optimizer data = Ok (total_loss, model', optimizer') ->
  (model', optimizer') = stepped crit (FLAGS.output_regularization F) data model optimizer.
Proof.
  unfold train_one_epoch. apply train_batches_stepped.
Qed.

Lemma train_one_epoch_steps_every_batch_witness :
  exists total_loss model' optimizer',
    @train_one_epoch one_weight FLAGS.defaults 1 Penalized_cross_entropy (1 # 1000)
      [(Vec [1], Vec [1]); (Vec [0], Vec [0])]
    = Ok (total_loss, model', optimizer') /\
    (model', optimizer')
    = @stepped one_weight Penalized_cross_entropy
        (FLAGS.output_regularization FLAGS.defaults)
        [(Vec [1], Vec [1]); (Vec [0], Vec [0])] 1 (1 # 1000).
Proof.
  destruct (@train_one_epoch one_weight FLAGS.defaults 1 Penalized_cross_entropy (1 # 1000)
              [(Vec [1], Vec [1]); (Vec [0], Vec [0])])
    as [[[total_loss model'] optimizer']|e] eqn:Hrun.
  - exists total_loss, model', optimizer'. split; [reflexivity|].
    apply (@train_one_epoch_steps_every_batch one_weight FLAGS.defaults 1
             Penalized_cross_entropy (1 # 1000) [(Vec [1], Vec [1]); (Vec [0], Vec [0])]
             total_loss model' optimizer' Hrun).
  - vm_compute in Hrun. discriminate Hrun.
Defined.

Section ScriptedCourse.

Variables Trainer Weights : Type.
Variable train : nat -> Trainer -> Trainer.
Variable snapshot : Trainer -> Weights.
Variable script : nat -> Q.

Lemma stalls_before_le (e : nat) : (stalls_before script e <= e)%nat.
Proof.
  induction e as [|e IH]; simpl; [lia|]. destruct (stalled script e); lia.
Qed.

Lemma best_before_stalled (e : nat) :
  stalled script e = true -> best_before script (S e) = best_before script e.
Proof.
  intros Hst. simpl. fold (stalled script e). now rewrite Hst.
Qed.

Lemma best_before_improved (e : nat) :
  stalled script e = false -> best_before script (S e) = script e.
Proof.
  intros Hst. simpl. fold (stalled script e). now rewrite Hst.
Qed.

Lemma stalled_false_lt (e : nat) :
  stalled script e = false -> best_before script e < script e.
Proof.
  intros Hst. unfold stalled in Hst. apply Qnot_le_lt. intros Hle.
  apply Qle_bool_iff in Hle. congruence.
Qed.

Lemma stalled_true_le (e : nat) :
  stalled script e = true -> script e <= best_before script e.
Proof.
  intros Hst. unfold stalled in Hst. now apply Qle_bool_iff.
Qed.

Lemma best_before_nonneg (e : nat) : 0 <= best_before script e.
Proof.
  induction e as [|e IH].
  - apply Qle_refl.
  - destruct (stalled script e) eqn:Hst.
    + now rewrite best_before_stalled.
    + rewrite best_before_improved by exact Hst.
      pose proof (stalled_false_lt _ Hst). lra.
Qed.

Lemma best_before_step (e : nat) : best_before script e <= best_before script (S e).
Proof.
  destruct (stalled script e) eqn:Hst.
  - rewrite best_before_stalled by exact Hst. apply Qle_refl.
  - rewrite best_before_improved by exact Hst.
    pose proof (stalled_false_lt _ Hst). lra.
Qed.

Lemma best_before_bounds_scores (n e : nat) :
  (e < n)%nat -> script e <= best_before script n.
Proof.
  induction n as [|n IH]; intros Hlt; [lia|].
  destruct (Nat.eq_dec e n) as [->|Hne].
  - destruct (stalled script n) eqn:Hst.
    + rewrite best_before_stalled by exact Hst. now apply stalled_true_le.
    + rewrite best_before_improved by exact Hst. apply Qle_refl.
  - pose proof (best_before_step n). assert (script e <= best_before script n)
      by (apply IH; lia). lra.
Qed.

Lemma last_improving_spec (n e : nat) :
  last_improving script n = Some e ->
  (e < n)%nat /\ stalled script e = false /\ best_before script n = script e.
Proof.
  induction n as [|n IH]; cbn [last_improving]; [discriminate|].
  destruct (stalled script n) eqn:Hst.
  - intros Hlast. destruct (IH Hlast) as (Hlt & Hnot & Hbest).
    repeat split; [lia | exact Hnot|].
    now rewrite best_before_stalled.
  - intros [= <-]. repeat split; [lia | exact Hst|].
    now apply best_before_improved.
Qed.

(** From epoch [e] on, with the trainer and the state the epochs before
    [e] leave. *)
Lemma epochs_loop_scripted_course (patience : Z) (tr0 : Trainer) (k : nat) :
  forall (e : nat),
    (stalls_before script e <= Z.to_nat patience)%nat ->
    exists st' stop,
      epochs_loop (scripted script train) snapshot (seq e k) (trained train tr0 e)
        {| n_tries := patience - Z.of_nat (stalls_before script e);
           best_validation_score := fin (best_before script e);
           best_weights :=
             option_map (fun e' => snapshot (trained train tr0 (S e')))
                        (last_improving script e) |}
      = Ok (trained train tr0 (epochs_run stop (e + k)), st', stop) /\
      best_validation_score st' = fin (best_before script (epochs_run stop (e + k))) /\
      n_tries st'
      = (patience - Z.of_nat (stalls_before script
                                (match stop with Some e' => e' | None => (e + k)%nat end)))%Z /\
      best_weights st'
      = option_map (fun e' => snapshot (trained train tr0 (S e')))
                   (last_improving script (epochs_run stop (e + k))).
Proof.
  induction k as [|k IH]; intros e Hle.
  - eexists. exists None. cbn [seq epochs_loop epochs_run]. rewrite Nat.add_0_r.
    repeat split; reflexivity.
  - cbn [seq epochs_loop scripted bind].
    change (train e (trained train tr0 e)) with (trained train tr0 (S e)).
    destruct (stalled script e) eqn:Hst.
    + pose proof (stalled_true_le _ Hst) as Hq.
      destruct (Z.ltb_spec 0 (patience - Z.of_nat (stalls_before script e)))
        as [Hpos | Hnonpos].
      * rewrite (early_stopping_stall_decrement _ _ Hq Hpos).
        destruct (IH (S e)) as (st' & stop & Hrun & Hbest & Hn & Hckpt).
        { simpl. rewrite Hst. lia. }
        exists st', stop.
        replace (e + S k)%nat with (S e + k)%nat by lia.
        rewrite <- Hrun, Hbest, Hn, Hckpt. repeat split.
        f_equal. rewrite (best_before_stalled _ Hst). cbn [last_improving stalls_before].
        rewrite Hst. f_equal. lia.
      * rewrite (early_stopping_stall_stop _ _ Hq Hnonpos).
        eexists. exists (Some e). cbn [epochs_run]. split; [reflexivity|].
        cbn [best_validation_score n_tries best_weights last_improving].
        rewrite (best_before_stalled _ Hst), Hst. repeat split; reflexivity.
    + pose proof (stalled_false_lt _ Hst) as Hlt.
      rewrite (early_stopping_improve _ _ _ Hlt).
      destruct (IH (S e)) as (st' & stop & Hrun & Hbest & Hn & Hckpt).
      { simpl. rewrite Hst. lia. }
      exists st', stop.
      replace (e + S k)%nat with (S e + k)%nat by lia.
      rewrite <- Hrun, Hbest, Hn, Hckpt. repeat split.
      f_equal. rewrite (best_before_improved _ Hst). cbn [last_improving stalls_before].
      rewrite Hst. reflexivity.
Qed.

End ScriptedCourse.

(** C1: the early-stopping machine on a scripted sequence of scores.  The
    loop starts from a best score of 0, a countdown equal to the patience
    and no checkpoint; a score that is not above the best one decrements a
    positive countdown and stops the loop on any other; a score above the
    best one becomes the best one and checkpoints the weights, the
    countdown staying as it is; so the loop breaks at the epoch below the
    limit that brings no improvement after exactly [patience] (0 for a
    negative patience) earlier epochs brought none, and runs to the limit
    when there is no such epoch; and it leaves the trainer of the last
    epoch run, the largest of 0 and the scores of the epochs run as the
    best score, the countdown lowered once for each epoch before the break
    that brought no improvement, and as checkpoint the weights as they
    were at the end of the last epoch that brought an improvement. *)
Theorem early_stopping_state_machine (Trainer Weights : Type)
  (train : nat -> Trainer -> Trainer) (snapshot : Trainer -> Weights)
  (script : nat -> Q) (training_epochs patience : Z) (tr : Trainer) :
  train_loop (scripted script train) snapshot training_epochs patience tr
  = epochs_loop (scripted script train) snapshot (seq 0 (Z.to_nat training_epochs)) tr
      {| n_tries := patience; best_validation_score := fin 0; best_weights := None |}
  /\
  (forall (score best : Q) (n : Z) (w : Weights) (ckpt : option Weights),
     (score <= best -> (0 < n)%Z ->
      early_stopping (fin score) w
        {| n_tries := n; best_validation_score := fin best; best_weights := ckpt |}
      = Proceed {| n_tries := n - 1; best_validation_score := fin best;
                   best_weights := ckpt |}) /\
     (score <= best -> (n <= 0)%Z ->
      early_stopping (fin score) w
        {| n_tries := n; best_validation_score := fin best; best_weights := ckpt |}
      = Stop {| n_tries := n; best_validation_score := fin best; best_weights := ckpt |}) /\
     (best < score ->
      early_stopping (fin score) w
        {| n_tries := n; best_validation_score := fin best; best_weights := ckpt |}
      = Proceed {| n_tries := n; best_validation_score := fin score;
                   best_weights := Some w |}))
  /\
  (exists st' stop,
     train_loop (scripted script train) snapshot training_epochs patience tr
     = Ok (trained train tr (epochs_run stop (Z.to_nat training_epochs)), st', stop) /\
     (forall e, stop = Some e <->
                (e < Z.to_nat training_epochs)%nat /\ stalled script e = true /\
                stalls_before script e = Z.to_nat patience) /\
     best_validation_score st'
     = fin (best_before script (epochs_run stop (Z.to_nat training_epochs))) /\
     n_tries st'
     = (patience - Z.of_nat (stalls_before script
                               (match stop with
                                | Some e => e
                                | None => Z.to_nat training_epochs
                                end)))%Z /\
     best_weights st'
     = option_map (fun e => snapshot (trained train tr (S e)))
                  (last_improving script (epochs_run stop (Z.to_nat training_epochs)))).
Proof.
  split; [reflexivity|]. split.
  - intros score best n w ckpt. split; [|split].
    + apply early_stopping_stall_decrement.
    + apply early_stopping_stall_stop.
    + apply early_stopping_improve.
  - destruct (@epochs_loop_scripted Trainer Weights train snapshot script patience
                (Z.to_nat training_epochs) 0%nat tr patience None)
      as (tr1 & st1 & stop1 & Hrun1 & Hstop); [simpl; lia | simpl; lia |].
    destruct (@epochs_loop_scripted_course Trainer Weights train snapshot script patience tr
                (Z.to_nat training_epochs) 0%nat)
      as (st' & stop & Hrun & Hbest & Hn & Hckpt); [simpl; lia|].
    cbn in Hrun. rewrite Z.sub_0_r in Hrun.
    cbn [best_before] in Hrun1. rewrite Hrun in Hrun1.
    injection Hrun1 as _ _ Hsame. subst stop1.
    exists st', stop. split; [exact Hrun|]. split; [|split; [exact Hbest|split]].
    + intros e. rewrite Hstop. split.
      * intros (Hr & H1 & H2). repeat split; try assumption; lia.
      * intros (Hr & H1 & H2). repeat split; try assumption; lia.
    + exact Hn.
    + exact Hckpt.
Qed.

(** X11: the state a scripted run ends in.  The trainer has gone through
    every epoch run; the best score is the largest of 0 and the scores of
    the epochs run; the countdown is the patience less the number of
    epochs before the break (before the limit, without a break) that
    brought no improvement; the checkpoint holds the weights as they were
    right after the last epoch that brought an improvement, and there is
    none when no epoch did. *)
Theorem train_loop_final_state (Trainer Weights : Type)
  (train : nat -> Trainer -> Trainer) (snapshot : Trainer -> Weights)
  (script : nat -> Q) (training_epochs patience : Z) (tr : Trainer) :
  exists st' stop,
    train_loop (scripted script train) snapshot training_epochs patience tr
    = Ok (trained train tr (epochs_run stop (Z.to_nat training_epochs)), st', stop) /\
    best_validation_score st'
    = fin (best_before script (epochs_run stop (Z.to_nat training_epochs))) /\
    n_tries st'
    = (patience - Z.of_nat (stalls_before script
                              (match stop with
                               | Some e => e
                               | None => Z.to_nat training_epochs
                               end)))%Z /\
    best_weights st'
    = option_map (fun e => snapshot (trained train tr (S e)))
                 (last_improving script (epochs_run stop (Z.to_nat training_epochs))).
Proof.
  destruct (@epochs_loop_scripted_course Trainer Weights train snapshot script patience tr
              (Z.to_nat training_epochs) 0%nat) as (st' & stop & Hrun & Hrest).
  - simpl. lia.
  - exists st', stop. split; [|exact Hrest].
    unfold train_loop. cbn in Hrun. rewrite Z.sub_0_r in Hrun. exact Hrun.
Qed.

(** X12: when [fit] returns on a scripted run, it returns the trainer with
    the weights of the first epoch that reached the largest score among
    the epochs run, and that score is above 0. *)
Theorem fit_restores_first_best_epoch (Trainer Weights : Type)
  (train : nat -> Trainer -> Trainer) (snapshot : Trainer -> Weights)
  (restore : Trainer -> Weights -> Trainer)
  (script : nat -> Q) (training_epochs patience : Z) (tr m : Trainer) :
  fit (scripted script train) snapshot restore training_epochs patience tr = Ok m ->
  exists e n_run,
    (e < n_run <= Z.to_nat training_epochs)%nat /\
    m = restore (trained train tr n_run) (snapshot (trained train tr (S e))) /\
    0 < script e /\
    (forall e', (e' < n_run)%nat -> script e' <= script e) /\
    (forall e', (e' < e)%nat -> script e' < script e).
Proof.
  intros Hfit. unfold fit in Hfit.
  destruct (@epochs_loop_scripted Trainer Weights train snapshot script patience
              (Z.to_nat training_epochs) 0%nat tr patience None)
    as (tr1 & st1 & stop1 & Hrun1 & Hstop); [simpl; lia | simpl; lia |].
  destruct (@epochs_loop_scripted_course Trainer Weights train snapshot script patience tr
              (Z.to_nat training_epochs) 0%nat)
    as (st' & stop & Hrun & _ & _ & Hckpt); [simpl; lia|].
  cbn in Hrun. rewrite Z.sub_0_r in Hrun.
  unfold train_loop in Hfit. rewrite Hrun in Hfit.
  cbn [best_before] in Hrun1. rewrite Hrun in Hrun1.
  injection Hrun1 as _ _ Hsame. subst stop1.
  cbn [bind] in Hfit. rewrite Nat.add_0_l in Hckpt. rewrite Hckpt in Hfit.
  destruct (last_improving script (epochs_run stop (Z.to_nat training_epochs)))
    as [e|] eqn:Hlast; cbn [option_map] in Hfit; [|discriminate].
  injection Hfit as <-.
  destruct (last_improving_spec _ _ Hlast) as (Hlt & Hnot & Hbest).
  pose proof (stalled_false_lt _ _ Hnot) as Hgt.
  pose proof (best_before_nonneg script e) as Hnonneg.
  exists e, (epochs_run stop (Z.to_nat training_epochs)).
  split; [split; [exact Hlt|]|].
  - destruct stop as [e0|]; cbn [epochs_run]; [|lia].
    destruct (proj1 (Hstop e0) eq_refl) as (Hr & _). lia.
  - split; [reflexivity|]. split; [lra|]. split.
    + intros e' He'. rewrite <- Hbest. now apply best_before_bounds_scores.
    + intros e' He'. pose proof (best_before_bounds_scores script He'). lra.
Qed.

Lemma fit_restores_first_best_epoch_witness :
  exists e n_run,
    (e < n_run <= Z.to_nat 10)%nat /\
    3%nat = (fun (_ w : nat) => w) (trained (fun _ => S) 0%nat n_run)
              ((fun w : nat => w) (trained (fun _ => S) 0%nat (S e))) /\
    0 < nth e [1 # 2; 1 # 3; 3 # 4; 1 # 4; 1 # 5; 1] 0 /\
    (forall e', (e' < n_run)%nat ->
                nth e' [1 # 2; 1 # 3; 3 # 4; 1 # 4; 1 # 5; 1] 0
                <= nth e [1 # 2; 1 # 3; 3 # 4; 1 # 4; 1 # 5; 1] 0) /\
    (forall e', (e' < e)%nat ->
                nth e' [1 # 2; 1 # 3; 3 # 4; 1 # 4; 1 # 5; 1] 0
                < nth e [1 # 2; 1 # 3; 3 # 4; 1 # 4; 1 # 5; 1] 0).
Proof.
  apply (@fit_restores_first_best_epoch nat nat (fun _ => S) (fun w => w) (fun _ w => w)
           (fun e => nth e [1 # 2; 1 # 3; 3 # 4; 1 # 4; 1 # 5; 1] 0) 10 2 0%nat 3%nat).
  reflexivity.
Defined.

(** X13: a scripted run never breaks before epoch [patience], and it runs
    every epoch when the patience is not below the number of epochs. *)
Theorem train_loop_runs_through_patience (Trainer Weights : Type)
  (train : nat -> Trainer -> Trainer) (snapshot : Trainer -> Weights)
  (script : nat -> Q) (training_epochs patience : Z) (tr : Trainer) :
  exists tr' st' stop,
    train_loop (scripted script train) snapshot training_epochs patience tr
    = Ok (tr', st', stop) /\
    (forall e, stop = Some e ->
               (Z.to_nat patience <= e < Z.to_nat training_epochs)%nat) /\
    ((training_epochs <= patience)%Z -> stop = None).
Proof.
  destruct (@epochs_loop_scripted Trainer Weights train snapshot script patience
              (Z.to_nat training_epochs) 0%nat tr patience None)
    as (tr' & st' & stop & Hrun & Hstop); [simpl; lia | simpl; lia |].
  exists tr', st', stop. split; [exact Hrun|].
  assert (Hbreak : forall e, stop = Some e ->
                             (Z.to_nat patience <= e < Z.to_nat training_epochs)%nat).
  { intros e He. destruct (proj1 (Hstop e) He) as (Hr & _ & Hcount).
    pose proof (stalls_before_le script e). lia. }
  split; [exact Hbreak|].
  intros Hle. destruct stop as [e|]; [|reflexivity].
  specialize (Hbreak e eq_refl). lia.
Qed.

(** X14: a validation score that is not a number never stops the loop and
    leaves the countdown as it is: it is checkpointed as the best score,
    and the score of the next epoch, whatever it is, is checkpointed in
    its place. *)
Theorem early_stopping_nan_score (Weights : Type) (st : early_stop Weights)
  (w1 w2 : Weights) (next_score : float) :
  early_stopping nan w1 st
  = Proceed {| n_tries := n_tries st; best_validation_score := nan;
               best_weights := Some w1 |} /\
  early_stopping next_score w2
    {| n_tries := n_tries st; best_validation_score := nan; best_weights := Some w1 |}
  = Proceed {| n_tries := n_tries st; best_validation_score := next_score;
               best_weights := Some w2 |}.
Proof.
  split.
  - reflexivity.
  - unfold early_stopping. cbn [best_validation_score n_tries fle nan].
    destruct next_score; reflexivity.
Qed.




Lemma sum_bounds (scores : list Q) :
  Forall (fun s => 0 <= s <= 1) scores -> 0 <= sum scores <= Q_of_nat (length scores).
Proof.
  induction 1 as [|s scores Hs _ IH].
  - simpl. split; apply Qle_refl.
  - cbn [sum fold_right length]. fold (sum scores).
    replace (S (length scores)) with (1 + length scores)%nat by lia.
    rewrite Q_of_nat_add. change (Q_of_nat 1) with 1. lra.
Qed.

(** X17: in a classification run, when every batch of the loader has
    one-dimensional predictions and targets of one size, with at least one
    element, and the loader yields at least one batch, [evaluate] returns
    "accuracy" with a score between 0 and 1. *)
Theorem evaluate_accuracy_bounds `{Torch} (F : FLAGS.t) (model : Model)
  (data : list Batch) :
  FLAGS.regression F = false -> (1 <= length data)%nat ->
  Forall (fun b => exists l t,
            fst (forward model b) = Vec l /\ batch_y b = Vec t /\
            length l = length t /\ (1 <= length t)%nat) data ->
  exists a, evaluate F model data = Ok (Some "accuracy"%string, fin a) /\ 0 <= a <= 1.
Proof.
  intros Hreg Hn Hall.
  assert (Hscores : exists scores,
    Forall2 (fun b s => exists m,
               calculate_metric (fst (forward model b)) (batch_y b) (FLAGS.regression F)
               = Ok (m, fin s)) data scores /\
    Forall (fun s => 0 <= s <= 1) scores).
  { clear Hn. induction Hall as [|b data (l & t & Hl & Ht & Hlen & Hlt) _ (scores & H2 & Hb)].
    - exists []. split; constructor.
    - destruct (@accuracySingle_bounds_helper l t Hlen Hlt) as (a & Ha & Hbound).
      exists (a :: scores). split; [|constructor; assumption].
      constructor; [|exact H2]. exists "accuracy"%string.
      rewrite Hreg, Hl, Ht. unfold calculate_metric. cbn [shape length Nat.eqb].
      rewrite Ha. reflexivity. }
  destruct Hscores as (scores & H2 & Hb).
  destruct (@evaluate_batches_mean _ F model data scores 1%nat None 0 0)
    as (metric' & a & Hrun & Ha & Hmetric); [lia | change (Q_of_nat 1) with 1; ring
                                            | exact H2 |].
  exists a. split.
  - unfold evaluate. rewrite Hrun, Hmetric, Hreg.
    destruct data; [simpl in Hn; lia | reflexivity].
  - pose proof (sum_bounds Hb) as Hsum.
    rewrite <- (Forall2_length H2) in Hsum.
    pose proof (Q_of_nat_pos Hn) as Hpos.
    rewrite Q_of_nat_add in Ha. change (Q_of_nat 1) with 1 in Ha.
    assert (Ha' : a * Q_of_nat (length data) == sum scores).
    { rewrite <- (Qplus_0_l (sum scores)), <- Ha. ring. }
    split.
    + destruct (Qlt_le_dec a 0) as [Hneg|]; [|assumption]. nra.
    + destruct (Qlt_le_dec 1 a) as [Hbig|]; [|assumption]. nra.
Qed.

Lemma evaluate_accuracy_bounds_witness :
  exists a,
    @evaluate one_weight FLAGS.defaults 1 [(Vec [1; 0], Vec [1; 0]); (Vec [1], Vec [0])]
    = Ok (Some "accuracy"%string, fin a) /\ 0 <= a <= 1.
Proof.
  apply (@evaluate_accuracy_bounds one_weight FLAGS.defaults 1
           [(Vec [1; 0], Vec [1; 0]); (Vec [1], Vec [0])]).
  - reflexivity.
  - simpl. lia.
  - constructor; [|constructor; [|constructor]].
    + eexists. eexists. split; [reflexivity|]. split; [reflexivity|].
      split; [reflexivity | simpl; lia].
    + eexists. eexists. split; [reflexivity|]. split; [reflexivity|].
      split; [reflexivity | simpl; lia].
Defined.

(** * The arithmetic on binary64 floats *)


















(** With the weight 0 the penalty is nan when a square overflows. *)
Lemma feature_loss_zero_weight_overflow :
  PrimFloat.is_nan (Binary64.feature_loss 1 [[0x1p600%float]] 0%float) = true.
Proof.
  reflexivity.
Qed.

(** Scaling the weight and scaling the penalty round differently:
    [fnn_out = [[1, 2]]], the weight nearest to 0.1, the factor 3. *)
Lemma feature_loss_scaling_rounds :
  PrimFloat.eqb
    (Binary64.feature_loss 2 [[1; 2]]%float
       (PrimFloat.mul 3 0x1.999999999999ap-4)%float)
    (PrimFloat.mul 3 (Binary64.feature_loss 2 [[1; 2]]%float 0x1.999999999999ap-4))%float
  = false.
Proof.
  reflexivity.
Qed.



(** C8 (as stated) fails: the floats (2^53, 1, 1) against zeros, and the
    same pairs in the order (1, 1, 2^53), have different mean absolute
    errors, 3002399751580330.5 and 3002399751580331.5. *)
Lemma mean_absolute_error_depends_on_order :
  Permutation (combine [9007199254740992; 1; 1]%float [0; 0; 0]%float)
              (combine [1; 1; 9007199254740992]%float [0; 0; 0]%float) /\
  Binary64.mean_absolute_error [9007199254740992; 1; 1]%float [0; 0; 0]%float
  = 3002399751580330.5%float /\
  Binary64.mean_absolute_error [1; 1; 9007199254740992]%float [0; 0; 0]%float
  = 3002399751580331.5%float /\
  PrimFloat.eqb
    (Binary64.mean_absolute_error [9007199254740992; 1; 1]%float [0; 0; 0]%float)
    (Binary64.mean_absolute_error [1; 1; 9007199254740992]%float [0; 0; 0]%float)
  = false.
Proof.
  split; [|repeat split; reflexivity].
  cbn [combine].
  apply perm_trans with (l' := [(1, 0); (9007199254740992, 0); (1, 0)]%float).
  - apply perm_swap.
  - apply perm_skip. apply perm_swap.
Qed.

Lemma SFadd_comm (x y : spec_float) : SF64add x y = SF64add y x.
Proof.
  destruct x as [sx|sx| |sx mx ex], y as [sy|sy| |sy my ey]; simpl;
    try reflexivity; try (destruct sx, sy; reflexivity).
  unfold SF64add, SFadd. rewrite (Z.min_comm ey ex), Z.add_comm. reflexivity.
Qed.

Lemma SFadd_zero_plus (y : spec_float) :
  plus_signed y -> SF64add (S754_zero false) y = y.
Proof.
  destruct y as [s|s| |s m e]; simpl; intros Hs; subst; reflexivity.
Qed.

Lemma abs_plus_signed (x : PrimFloat.float) : plus_signed (Prim2SF (PrimFloat.abs x)).
Proof.
  rewrite FloatAxioms.abs_spec. destruct (Prim2SF x); simpl; auto.
Qed.

(** On floats, exchanging the two elements of two-element tensors leaves
    the mean absolute error as it is: the one addition commutes. *)
Lemma mean_absolute_error_two_elements (l1 l2 t1 t2 : PrimFloat.float) :
  Binary64.mean_absolute_error [l1; l2] [t1; t2]
  = Binary64.mean_absolute_error [l2; l1] [t2; t1].
Proof.
  unfold Binary64.mean_absolute_error, Binary64.sum.
  cbn [map2 fold_left length]. f_equal. apply Prim2SF_inj.
  rewrite !FloatAxioms.add_spec.
  change (Prim2SF PrimFloat.zero) with (S754_zero false).
  rewrite !SFadd_zero_plus by apply abs_plus_signed.
  apply SFadd_comm.
Qed.

(** C8 (amended): on two tensors of one size, with at least one element,
    the regression branch of [calculate_metric] returns "MAE" with the sum
    of the absolute elementwise differences over the number of elements;
    the sum taken exactly, permuting the elements of both tensors alike
    leaves the value as it is; on floats it does so for tensors of two
    elements. *)
Theorem calculate_metric_MAE_order :
  (forall logits truths logits' truths' : tensor,
     wf logits -> wf logits' ->
     length (view_flat logits) = length (view_flat truths) ->
     length (view_flat logits') = length (view_flat truths') ->
     (1 <= numel logits)%nat ->
     Permutation (combine (view_flat logits) (view_flat truths))
                 (combine (view_flat logits') (view_flat truths')) ->
     exists v v',
       calculate_metric logits truths true = Ok ("MAE"%string, fin v) /\
       v == absolute_error (combine (view_flat logits) (view_flat truths))
            / Q_of_nat (numel logits) /\
       calculate_metric logits' truths' true = Ok ("MAE"%string, fin v') /\
       v' == v) /\
  (forall l1 l2 t1 t2 : PrimFloat.float,
     Binary64.mean_absolute_error [l1; l2] [t1; t2]
     = Binary64.mean_absolute_error [l2; l1] [t2; t1]).
Proof.
  split.
  - apply calculate_metric_MAE_permutation.
  - apply mean_absolute_error_two_elements.
Qed.

Lemma calculate_metric_MAE_order_witness :
  exists v v',
    calculate_metric (Vec [1; 5; 2]) (Vec [3; 1; 2]) true = Ok ("MAE"%string, fin v) /\
    v == absolute_error (combine [1; 5; 2] [3; 1; 2]) / Q_of_nat 3 /\
    calculate_metric (Vec [2; 1; 5]) (Vec [2; 3; 1]) true = Ok ("MAE"%string, fin v') /\
    v' == v.
Proof.
  apply (proj1 calculate_metric_MAE_order
           (Vec [1; 5; 2]) (Vec [3; 1; 2]) (Vec [2; 1; 5]) (Vec [2; 3; 1])).
  - exact I.
  - exact I.
  - reflexivity.
  - reflexivity.
  - rewrite numel_Vec. simpl. lia.
  - simpl.
    apply perm_trans with (l' := [(1, 3); (2, 2); (5, 1)]).
    + apply perm_skip. apply perm_swap.
    + apply perm_swap.
Defined.
